(** * Lead-capture bot (bot.py): the lead record store, the conversation
    handlers, the broadcast dispatcher and the catch-all responder.

    A Python [str] is modelled by its UTF-8 encoding, a Rocq [string]:
    substring search and splitting at the ASCII separator ["_"] agree on
    the encoding and on the code points.  The table [users] is a finite
    map from [user_id] (the primary key) to rows. *)

From Stdlib Require Import ZArith String Ascii List.
From stdpp Require Import base option countable gmap strings list fin_maps fin_sets pretty.

Local Open Scope Z_scope.
Local Open Scope string_scope.
Set Warnings "-clear-no-such-hyp".

(** ** The table [users] (CREATE_TABLE, lines 49-57) *)

(** A TEXT cell: [None] is SQL NULL (Python [None]). *)
Abbreviation cell := (option string).

Record Row := mkRow {
  user_id : Z;
  name : cell; goal : cell; property : cell;
  city : cell; district : cell; mortgage : cell;
  handover : cell; finishing : cell; phone : cell;
  created_at : cell
}.

(** The TEXT columns, which a keyword argument of [upsert_user] can name. *)
Inductive column :=
  | c_name | c_goal | c_property | c_city | c_district | c_mortgage
  | c_handover | c_finishing | c_phone | c_created_at.

#[global] Instance column_eq_dec : EqDecision column.
Proof. solve_decision. Defined.

Definition column_code (c : column) : nat :=
  match c with
  | c_name => 0 | c_goal => 1 | c_property => 2 | c_city => 3
  | c_district => 4 | c_mortgage => 5 | c_handover => 6
  | c_finishing => 7 | c_phone => 8 | c_created_at => 9
  end%nat.

Definition column_of_code (n : nat) : column :=
  match n with
  | 0 => c_name | 1 => c_goal | 2 => c_property | 3 => c_city
  | 4 => c_district | 5 => c_mortgage | 6 => c_handover
  | 7 => c_finishing | 8 => c_phone | _ => c_created_at
  end%nat.

#[global] Instance column_countable : Countable column.
Proof.
  apply (inj_countable' column_code column_of_code).
  intros []; reflexivity.
Defined.

(** The data columns: every TEXT column but [created_at]. *)
Definition data_columns : list column :=
  [c_name; c_goal; c_property; c_city; c_district; c_mortgage;
   c_handover; c_finishing; c_phone].

(** Reading a column of a row. *)
Definition col (c : column) (r : Row) : cell :=
  match c with
  | c_name => name r | c_goal => goal r | c_property => property r
  | c_city => city r | c_district => district r | c_mortgage => mortgage r
  | c_handover => handover r | c_finishing => finishing r
  | c_phone => phone r | c_created_at => created_at r
  end.

(** The keyword arguments [**fields]: a dict from column names to values. *)
Abbreviation Fields := (gmap column cell).

(** The table: rows by primary key. *)
Abbreviation Table := (gmap Z Row).

(** INSERT OR IGNORE INTO users(user_id, created_at) VALUES(?,?):
    the row a fresh id gets. *)
Definition new_row (uid : Z) (now : string) : Row :=
  {| user_id := uid;
     name := None; goal := None; property := None;
     city := None; district := None; mortgage := None;
     handover := None; finishing := None; phone := None;
     created_at := Some now |}.

(** Lines 66-69: the insert is ignored when the key is taken. *)
Definition insert_or_ignore (uid : Z) (now : string) (t : Table) : Table :=
  match t !! uid with
  | Some _ => t
  | None => <[uid := new_row uid now]> t
  end.

(** [SET k=?] for the columns named in [fields] only. *)
Definition set_cell (fields : Fields) (c : column) (old : cell) : cell :=
  match fields !! c with
  | Some v => v
  | None => old
  end.

Definition update_row (fields : Fields) (r : Row) : Row :=
  {| user_id := user_id r;
     name := set_cell fields c_name (name r);
     goal := set_cell fields c_goal (goal r);
     property := set_cell fields c_property (property r);
     city := set_cell fields c_city (city r);
     district := set_cell fields c_district (district r);
     mortgage := set_cell fields c_mortgage (mortgage r);
     handover := set_cell fields c_handover (handover r);
     finishing := set_cell fields c_finishing (finishing r);
     phone := set_cell fields c_phone (phone r);
     created_at := set_cell fields c_created_at (created_at r) |}.

(** Line 73: UPDATE users SET ... WHERE user_id=?  (no row, no change). *)
Definition sql_update (uid : Z) (fields : Fields) (t : Table) : Table :=
  alter (update_row fields) uid t.

(** [upsert_user] (lines 64-75); [now] is [datetime.utcnow().isoformat()].
    [if fields:] is the dict's truth value: it is not empty. *)
Definition upsert_user (uid : Z) (fields : Fields) (now : string)
    (t : Table) : Table :=
  let t1 := insert_or_ignore uid now t in
  if decide (fields = ∅) then t1 else sql_update uid fields t1.

(** The store contract read off [upsert_user]: [ensure] is the call without
    keyword arguments, [update] the call with some, [get] the SELECT of
    [handle_contact] (lines 232-234). *)
Definition ensure (uid : Z) (now : string) (t : Table) : Table :=
  upsert_user uid ∅ now t.

Definition get (uid : Z) (t : Table) : option Row := t !! uid.

(** [iterate_users] (lines 77-82): SELECT user_id FROM users, in the order
    the table yields its rows. *)
Definition iterate_users (t : Table) : list Z := (map_to_list t).*1.

(** [get_user_count] (lines 84-89): SELECT COUNT( * ) FROM users. *)
Definition get_user_count (t : Table) : nat := size t.

(** ** Strings *)

(** [s.split("_", 1)]: at most one cut, at the first underscore. *)
Fixpoint cut_underscore (s : string) : option (string * string) :=
  match s with
  | EmptyString => None
  | String a r =>
      if Ascii.eqb a "_" then Some (EmptyString, r)
      else match cut_underscore r with
           | Some (h, t) => Some (String a h, t)
           | None => None
           end
  end.

Definition split_underscore_1 (s : string) : list string :=
  match cut_underscore s with
  | Some (h, t) => [h; t]
  | None => [s]
  end.

(** [k in text]: [k] occurs in [text] as a substring. *)
Fixpoint contains (k text : string) : bool :=
  if String.prefix k text then true
  else match text with
       | EmptyString => false
       | String _ r => contains k r
       end.

(** [any(k in text for k in ks)]. *)
Definition any_in (ks : list string) (text : string) : bool :=
  existsb (fun k => contains k text) ks.

(** [s[1:]]. *)
Definition tail_str (s : string) : string :=
  match s with
  | EmptyString => EmptyString
  | String _ r => r
  end.

(** How an f-string prints a cell: NULL comes back as [None]. *)
Definition fmt (v : cell) : string :=
  match v with
  | Some s => s
  | None => "None"
  end.

(** An instance of [str.lower] for the examples: Basic Latin and the
    Cyrillic letters U+0400..U+042F, on the UTF-8 encoding; every other
    byte is kept. *)
Definition lower_ascii (a : ascii) : ascii :=
  let n := nat_of_ascii a in
  if ((65 <=? n) && (n <=? 90))%nat then ascii_of_nat (n + 32) else a.

Fixpoint lower_ru (s : string) : string :=
  match s with
  | EmptyString => EmptyString
  | String a r =>
      if (nat_of_ascii a =? 208)%nat then
        match r with
        | EmptyString => String a EmptyString
        | String b r' =>
            let n := nat_of_ascii b in
            if ((128 <=? n) && (n <=? 143))%nat then
              String (ascii_of_nat 209) (String (ascii_of_nat (n + 16)) (lower_ru r'))
            else if ((144 <=? n) && (n <=? 159))%nat then
              String a (String (ascii_of_nat (n + 32)) (lower_ru r'))
            else if ((160 <=? n) && (n <=? 175))%nat then
              String (ascii_of_nat 209) (String (ascii_of_nat (n - 32)) (lower_ru r'))
            else String a (lower_ru r)
        end
      else String (lower_ascii a) (lower_ru r)
  end.

(** ** Configuration (lines 20-26) *)

Definition CHANNEL_USERNAME : string := "@poryadindom".
Definition PDF_FILE_PATH : string := "file.pdf".

(** ** The chat transport *)

Inductive button :=
  | CallbackButton (text callback_data : string)
  | UrlButton (text url : string).

Inductive markup :=
  | NoMarkup
  | InlineKeyboardMarkup (kb : list button)
  | ReplyKeyboardContact (text : string)
  | ReplyKeyboardRemove.

(** The outbound calls of the handlers. *)
Inductive api_call :=
  | send_message (chat : Z) (text : string) (reply_markup : markup)
  | send_document (chat : Z) (path caption : string)
  | answer_callback (user : Z).

#[global] Instance button_eq_dec : EqDecision button.
Proof. solve_decision. Defined.
#[global] Instance markup_eq_dec : EqDecision markup.
Proof. solve_decision. Defined.
#[global] Instance api_call_eq_dec : EqDecision api_call.
Proof. solve_decision. Defined.

(** An inbound message: sender, chat, and the optional text and contact
    (the phone number of a shared contact). *)
Record Message := mkMessage {
  from_id : Z;
  full_name : string;
  chat_id : Z;
  text : option string;
  contact : option string
}.

(** A button press: who pressed, the payload, the chat of [cb.message]. *)
Record CallbackQuery := mkCallbackQuery {
  cb_from : Z;
  cb_data : string;
  cb_chat : Z
}.

(** What a handler reads from outside the process: the configured admin,
    the clock, whether the transport accepts a call, the channel
    membership lookup ([None]: the lookup itself fails) and the disk. *)
Record Env := mkEnv {
  ADMIN_ID : Z;
  utcnow : string;
  transport : api_call -> bool;
  get_chat_member : Z -> option string;
  path_exists : string -> bool
}.

(** ** Handlers: state and exceptions *)

Inductive exn :=
  | AttributeError
  | IndexError
  | TypeError
  | TelegramAPIError.

(** The table and the log of transport calls, each with its outcome
    ([true]: delivered). *)
Record World := mkWorld {
  users : Table;
  trace : list (api_call * bool)
}.

(** A handler runs on a world; an exception keeps what was committed. *)
Definition Handler (A : Type) : Type := World -> World * (exn + A).

#[global] Instance Handler_ret : MRet Handler :=
  fun A x w => (w, inr x).

#[global] Instance Handler_bind : MBind Handler :=
  fun A B f m w =>
    match m w with
    | (w', inr a) => f a w'
    | (w', inl e) => (w', inl e)
    end.

Definition raise {A} (e : exn) : Handler A := fun w => (w, inl e).

(** [try: body / except: continue]. *)
Definition try_except (body : Handler unit) : Handler unit :=
  fun w => (fst (body w), inr tt).

(** [for x in l: body]. *)
Fixpoint for_each {A} (l : list A) (body : A -> Handler unit) : Handler unit :=
  match l with
  | [] => mret tt
  | x :: r => body x;; for_each r body
  end.

(** One transport call: logged, and raising when the transport refuses. *)
Definition call (e : Env) (c : api_call) : Handler unit :=
  fun w =>
    let ok := transport e c in
    let w' := {| users := users w; trace := trace w ++ [(c, ok)] |} in
    (w', if ok then inr tt else inl TelegramAPIError).

(** [message.answer(text, reply_markup=kb)]. *)
Definition answer (e : Env) (chat : Z) (body : string) (kb : markup) : Handler unit :=
  call e (send_message chat body kb).

(** [await upsert_user(uid, **fields)] inside a handler. *)
Definition do_upsert (e : Env) (uid : Z) (fields : Fields) : Handler unit :=
  fun w => ({| users := upsert_user uid fields (utcnow e) (users w);
               trace := trace w |}, inr tt).

(** [cb.data.split("_",1)[1]]. *)
Definition payload (data : string) : Handler string :=
  match split_underscore_1 data !! 1%nat with
  | Some s => mret s
  | None => raise IndexError
  end.

(** The messages the transport delivered, in order. *)
Definition delivered (w : World) : list api_call :=
  (filter (fun a => snd a = true) (trace w)).*1.

(** The calls the handlers attempted, in order. *)
Definition attempted (w : World) : list api_call := (trace w).*1.

(** ** Start and subscription (lines 98-127) *)

Definition join_prompt : string :=
  "👋 Добро пожаловать! Чтобы начать, подпишитесь на наш канал.".

Definition join_keyboard : markup :=
  InlineKeyboardMarkup
    [UrlButton "➡️ Подписаться на канал" ("https://t.me/" ++ tail_str CHANNEL_USERNAME)].

Definition goal_prompt : string :=
  "Вы рассматриваете недвижимость для жизни или в качестве инвестиции?".

Definition ask_goal (e : Env) (chat : Z) : Handler unit :=
  answer e chat goal_prompt
    (InlineKeyboardMarkup
       [CallbackButton "🏡 Для проживания" "goal_live";
        CallbackButton "💼 Для инвестиций" "goal_invest"]).

(** [member.status not in ("member","creator","administrator")]. *)
Definition is_subscribed (status : string) : bool :=
  bool_decide (status ∈ ["member"; "creator"; "administrator"]).

Definition cmd_start (e : Env) (message : Message) : Handler unit :=
  let uid := from_id message in
  do_upsert e uid {[ c_name := Some (full_name message) ]};;
  member ← (match get_chat_member e uid with
            | Some status => mret status
            | None => raise TelegramAPIError
            end);
  if negb (is_subscribed member) then
    answer e (chat_id message) join_prompt join_keyboard
  else ask_goal e (chat_id message).

(** ** The question handlers used below (lines 129-137, 162-227) *)

Definition type_prompt : string := "Какой тип объекта Вас интересует?".

Definition handle_goal (e : Env) (cb : CallbackQuery) : Handler unit :=
  g ← payload (cb_data cb);
  do_upsert e (cb_from cb) {[ c_goal := Some g ]};;
  answer e (cb_chat cb) type_prompt
    (InlineKeyboardMarkup
       (map (fun tc => CallbackButton (fst tc) ("type_" ++ snd tc))
            [("1-комнатная", "1"); ("2-комнатная", "2"); ("3-комнатная", "3");
             ("🏠 Дом", "house"); ("Студия", "studio")]));;
  call e (answer_callback (cb_from cb)).

Definition mortgage_prompt : string :=
  "Рассматриваете ли Вы семейную ипотеку? (ребёнок до 7 лет или двое несовершеннолетних)".

Definition ask_mortgage (e : Env) (chat : Z) : Handler unit :=
  answer e chat mortgage_prompt
    (InlineKeyboardMarkup
       [CallbackButton "👨‍👩‍👧 Семейная ипотека – да" "family_yes";
        CallbackButton "❌ Нет семейной" "family_no"]).

Definition handle_district (e : Env) (cb : CallbackQuery) : Handler unit :=
  d ← payload (cb_data cb);
  do_upsert e (cb_from cb) {[ c_district := Some d ]};;
  ask_mortgage e (cb_chat cb);;
  call e (answer_callback (cb_from cb)).

Definition handover_prompt : string := "Важно ли, чтобы дом уже сдан?".

Definition ask_handover (e : Env) (chat : Z) : Handler unit :=
  answer e chat handover_prompt
    (InlineKeyboardMarkup
       [CallbackButton "🏢 Только сданные" "hd_now";
        CallbackButton "⏳ Готов ждать" "hd_wait"]).

Definition install_prompt : string :=
  "Тогда доступна рассрочка. Выберите локацию:".

Definition handle_family (e : Env) (cb : CallbackQuery) : Handler unit :=
  choice ← payload (cb_data cb);
  let val := if String.eqb choice "yes" then "family" else "no_family" in
  do_upsert e (cb_from cb) {[ c_mortgage := Some val ]};;
  (if String.eqb choice "no" then
     answer e (cb_chat cb) install_prompt
       (InlineKeyboardMarkup
          [CallbackButton "🏖 Побережье КК" "install_coast";
           CallbackButton "🏙 Краснодар" "install_krasnodar"])
   else ask_handover e (cb_chat cb));;
  call e (answer_callback (cb_from cb)).

Definition handle_install (e : Env) (cb : CallbackQuery) : Handler unit :=
  loc ← payload (cb_data cb);
  do_upsert e (cb_from cb) {[ c_mortgage := Some ("install_" ++ loc) ]};;
  ask_handover e (cb_chat cb);;
  call e (answer_callback (cb_from cb)).

Definition finish_prompt : string := "В каком состоянии предпочитаете жилье?".

Definition handle_handover (e : Env) (cb : CallbackQuery) : Handler unit :=
  val ← payload (cb_data cb);
  do_upsert e (cb_from cb) {[ c_handover := Some val ]};;
  answer e (cb_chat cb) finish_prompt
    (InlineKeyboardMarkup
       [CallbackButton "🔨 С ремонтом" "finish_ready";
        CallbackButton "🛠 Подчистовая" "finish_grey"]);;
  call e (answer_callback (cb_from cb)).

Definition phone_prompt : string := "Пожалуйста, оставьте ваш номер телефона:".

Definition handle_finish (e : Env) (cb : CallbackQuery) : Handler unit :=
  val ← payload (cb_data cb);
  do_upsert e (cb_from cb) {[ c_finishing := Some val ]};;
  answer e (cb_chat cb) phone_prompt (ReplyKeyboardContact "📱 Оставить номер");;
  call e (answer_callback (cb_from cb)).

(** ** The shared contact (lines 229-242) *)

(** Line 236: [row[2]] .. [row[9]] of SELECT * are goal .. phone. *)
Definition contact_parts (row : Row) : list string :=
  ["Цель: " ++ fmt (goal row); "Тип: " ++ fmt (property row);
   "Город: " ++ fmt (city row); "Район: " ++ fmt (district row);
   "Ипотека: " ++ fmt (mortgage row); "Сдача: " ++ fmt (handover row);
   "Отделка: " ++ fmt (finishing row); "Телефон: " ++ fmt (phone row)].

Definition admin_header : string := "📩 Заявка получили!".

Definition pdf_caption : string :=
  "Выдача самого топового предложения на побережье с ПВ от 600 тысяч рублей".

Definition thanks : string := "Спасибо! Наш специалист свяжется с Вами. ✨".

(** [cur.fetchone()] of the SELECT by primary key; subscripting a missing
    row raises. *)
Definition fetchone (uid : Z) : Handler Row :=
  fun w =>
    match get uid (users w) with
    | Some row => (w, inr row)
    | None => (w, inl TypeError)
    end.

(** Line 237 closes the call right after the header: [parts] is built on
    line 236 and the join of lines 238-239 stays outside the call. *)
Definition handle_contact (e : Env) (msg : Message) : Handler unit :=
  phone_number ← (match contact msg with
                  | Some p => mret p
                  | None => raise AttributeError
                  end);
  do_upsert e (from_id msg) {[ c_phone := Some phone_number ]};;
  row ← fetchone (from_id msg);
  let parts := contact_parts row in
  call e (send_message (ADMIN_ID e) admin_header NoMarkup);;
  (if path_exists e PDF_FILE_PATH then
     call e (send_document (chat_id msg) PDF_FILE_PATH pdf_caption)
   else mret tt);;
  answer e (chat_id msg) thanks ReplyKeyboardRemove.

(** ** The broadcast (lines 91-96) *)

Definition mass_send (e : Env) (body : string) (kb : markup) : Handler unit :=
  fun w =>
    for_each (iterate_users (users w))
      (fun uid => try_except (call e (send_message uid body kb))) w.

(** ** The catch-all responder (lines 244-254) *)

Definition reply_sea : string :=
  "🏖 Отличные варианты на побережье Краснодарского края! Напишите, какой формат интересует.".
Definition reply_price : string :=
  "💰 Уточните параметры – и мы подберем лучшие предложения.".
Definition reply_mortgage : string :=
  "🏦 Мы предлагаем семейную ипотеку и рассрочку под ваш бюджет.".
Definition reply_generic : string :=
  "🤝 Спасибо за сообщение! Ответим в ближайшее время.".

(** [str_lower] is Python's [str.lower]. *)
Definition smart_replies (str_lower : string -> string) (e : Env)
    (message : Message) : Handler unit :=
  match text message with
  | None => raise AttributeError
  | Some t =>
      let text := str_lower t in
      if any_in ["море"; "побережье"] text then
        answer e (chat_id message) reply_sea NoMarkup
      else if any_in ["цена"; "стоимость"] text then
        answer e (chat_id message) reply_price NoMarkup
      else if any_in ["ипотек"; "рассроч"] text then
        answer e (chat_id message) reply_mortgage NoMarkup
      else answer e (chat_id message) reply_generic NoMarkup
  end.

(** ** The wording of section 4.3, to compare [smart_replies] with *)

(** The ordered keyword groups with their canned replies. *)
Definition keyword_groups : list (list string * string) :=
  [(["море"; "побережье"], reply_sea);
   (["цена"; "стоимость"], reply_price);
   (["ипотек"; "рассроч"], reply_mortgage)].

(** A keyword matches a text by containment, both taken in lower case. *)
Definition matches_ci (str_lower : string -> string) (k t : string) : bool :=
  contains (str_lower k) (str_lower t).

(** The reply of the first group with a matching keyword, or the generic
    acknowledgement. *)
Definition canned_reply (str_lower : string -> string) (t : string) : string :=
  match find (fun g => existsb (fun k => matches_ci str_lower k t) (fst g))
             keyword_groups with
  | Some g => snd g
  | None => reply_generic
  end.

(** ** Sequences of store calls *)

(** The two statements of [upsert_user] as the store's calls: [Ensure] is
    the INSERT OR IGNORE of lines 66-69, [Update] the UPDATE of line 73. *)
Inductive store_call :=
  | Ensure (uid : Z) (now : string)
  | Update (uid : Z) (fields : Fields).

Definition run_call (c : store_call) (t : Table) : Table :=
  match c with
  | Ensure uid now => ensure uid now t
  | Update uid fields => sql_update uid fields t
  end.

(** The calls of a list, first to last. *)
Definition run_calls (cs : list store_call) (t : Table) : Table :=
  fold_left (fun acc c => run_call c acc) cs t.

(** The ids passed to [ensure] in a list of calls. *)
Fixpoint ensured (cs : list store_call) : gset Z :=
  match cs with
  | [] => ∅
  | Ensure uid _ :: r => {[ uid ]} ∪ ensured r
  | Update _ _ :: r => ensured r
  end.

(** ** Concrete inputs *)

Definition all_columns_set (r : Row) : bool :=
  forallb (fun c => bool_decide (is_Some (col c r))) (c_created_at :: data_columns).

(** A transport that accepts every call but those to the chats of [blocked]. *)
Definition transport_except (blocked : list Z) (c : api_call) : bool :=
  match c with
  | send_message chat _ _ => bool_decide (chat ∉ blocked)
  | send_document chat _ _ => bool_decide (chat ∉ blocked)
  | answer_callback _ => true
  end.

Definition env0 (status : string) (blocked : list Z) : Env :=
  {| ADMIN_ID := 777;
     utcnow := "2024-05-01T09:00:00";
     transport := transport_except blocked;
     get_chat_member := fun _ => Some status;
     path_exists := fun _ => false |}.

Definition world0 : World := {| users := ∅; trace := [] |}.

(** Lead(123) of the scenario of section 8, before the phone is shared. *)
Definition lead123 : Row :=
  {| user_id := 123; name := Some "Ann";
     goal := Some "invest"; property := Some "2";
     city := Some "moscow"; district := Some "юго-западный";
     mortgage := Some "install_coast"; handover := Some "now";
     finishing := Some "ready"; phone := None;
     created_at := Some "2024-05-01T08:55:00" |}.

Definition world123 : World := {| users := {[ 123 := lead123 ]}; trace := [] |}.

Definition start123 : Message :=
  {| from_id := 123; full_name := "Ann"; chat_id := 123;
     text := Some "/start"; contact := None |}.

Definition contact123 : Message :=
  {| from_id := 123; full_name := "Ann"; chat_id := 123;
     text := None; contact := Some "+79990000000" |}.

Definition sticker123 : Message :=
  {| from_id := 123; full_name := "Ann"; chat_id := 123;
     text := None; contact := None |}.

Definition text123 (t : string) : Message :=
  {| from_id := 123; full_name := "Ann"; chat_id := 123;
     text := Some t; contact := None |}.

Definition press123 (data : string) : CallbackQuery :=
  {| cb_from := 123; cb_data := data; cb_chat := 123 |}.

(** ["\n".join(parts)]. *)
Definition join_lines (parts : list string) : string :=
  String.concat (String (ascii_of_nat 10) EmptyString) parts.

(** A list of [upsert_user] calls [(uid, fields, now)], first to last. *)
Definition run_upserts (us : list (Z * Fields * string)) (t : Table) : Table :=
  fold_left (fun acc u => upsert_user (fst (fst u)) (snd (fst u)) (snd u) acc) us t.

(** The row of a user who has only sent [/start]. *)
Definition started_row (uid : Z) (display : string) (now : string) : Row :=
  {| user_id := uid; name := Some display;
     goal := None; property := None; city := None; district := None;
     mortgage := None; handover := None; finishing := None; phone := None;
     created_at := Some now |}.

Definition handover_keyboard : markup :=
  InlineKeyboardMarkup
    [CallbackButton "🏢 Только сданные" "hd_now";
     CallbackButton "⏳ Готов ждать" "hd_wait"].

(** The eight captured values of a lead, as the notification prints them. *)
Definition captured_values (row : Row) : list string :=
  map fmt [goal row; property row; city row; district row; mortgage row;
           handover row; finishing row; phone row].

(** The text that lines 237-239 spell out around the closing parenthesis
    of the call: the header, a newline, and the joined parts. *)
Definition header_and_parts (row : Row) : string :=
  admin_header ++ String (ascii_of_nat 10) EmptyString
    ++ join_lines (contact_parts row).

(** The texts of the messages sent to a chat, in order. *)
Definition texts_to (chat : Z) (w : World) : list string :=
  omap (fun c => match c with
                 | send_message to body _ =>
                     if decide (to = chat) then Some body else None
                 | _ => None
                 end) (attempted w).

(** The transport call of the broadcast for one recipient, with its outcome. *)
Definition broadcast_attempt (e : Env) (body : string) (kb : markup) (uid : Z)
    : api_call * bool :=
  (send_message uid body kb, transport e (send_message uid body kb)).

(** Three known ids, as in the broadcast scenario of section 8. *)
Definition world3 : World :=
  {| users := {[ 1 := new_row 1 "t1"; 2 := new_row 2 "t2"; 3 := new_row 3 "t3" ]};
     trace := [] |}.

(** All keywords of the responder. *)
Definition all_keywords : list string := concat (map fst keyword_groups).

(** ** The district table (lines 28-42), in the order of the dict *)

Definition DISTRICTS : list (string * list string) :=
  [("krasnodar",
    ["Центральный"; "Прикубанский"; "Фестивальный";
     "Северный"; "Западный"; "Юбилейный"]);
   ("moscow",
    ["Центральный"; "Северный"; "Восточный";
     "Западный"; "Юго-Западный"; "Юго-Восточный"]);
   ("spb",
    ["Адмиралтейский"; "Василеостровский"; "Московский";
     "Невский"; "Приморский"; "Калининский"])].

(** [DISTRICTS.get(city, [])]. *)
Definition districts_get (city : string) : list string :=
  match find (fun kv => String.eqb (fst kv) city) DISTRICTS with
  | Some kv => snd kv
  | None => []
  end.

(** [d.replace(" ", "_")]. *)
Fixpoint replace_space (s : string) : string :=
  match s with
  | EmptyString => EmptyString
  | String a r =>
      String (if Ascii.eqb a " " then "_"%char else a) (replace_space r)
  end.

(** [str.upper] and [str.capitalize] on the keys of [DISTRICTS], which are
    ASCII. *)
Definition upper_ascii (a : ascii) : ascii :=
  let n := nat_of_ascii a in
  if ((97 <=? n) && (n <=? 122))%nat then ascii_of_nat (n - 32) else a.

Fixpoint map_string (f : ascii -> ascii) (s : string) : string :=
  match s with
  | EmptyString => EmptyString
  | String a r => String (f a) (map_string f r)
  end.

Definition str_upper (s : string) : string := map_string upper_ascii s.

Definition str_capitalize (s : string) : string :=
  match s with
  | EmptyString => EmptyString
  | String a r => String (upper_ascii a) (map_string lower_ascii r)
  end.

(** [s.partition(" ")[2]]: what follows the first space, empty without one. *)
Fixpoint partition_space_2 (s : string) : string :=
  match s with
  | EmptyString => EmptyString
  | String a r => if Ascii.eqb a " " then r else partition_space_2 r
  end.

(** ** Property type and city (lines 139-160) *)

Definition city_prompt : string := "Выберите город / регион".

Definition city_button (city : string) : button :=
  CallbackButton
    (if String.eqb city "spb" then str_upper city else str_capitalize city)
    ("city_" ++ city).

Definition handle_type (e : Env) (cb : CallbackQuery) : Handler unit :=
  prop ← payload (cb_data cb);
  do_upsert e (cb_from cb) {[ c_property := Some prop ]};;
  answer e (cb_chat cb) city_prompt
    (InlineKeyboardMarkup (map city_button (map fst DISTRICTS)));;
  call e (answer_callback (cb_from cb)).

Definition district_prompt : string := "Уточните район:".

Definition district_button (str_lower : string -> string) (d : string) : button :=
  CallbackButton d ("district_" ++ str_lower (replace_space d)).

Definition handle_city (str_lower : string -> string) (e : Env)
    (cb : CallbackQuery) : Handler unit :=
  c ← payload (cb_data cb);
  do_upsert e (cb_from cb) {[ c_city := Some c ]};;
  answer e (cb_chat cb) district_prompt
    (InlineKeyboardMarkup (map (district_button str_lower) (districts_get c)));;
  call e (answer_callback (cb_from cb)).

(** ** Scheduled promotion and admin commands (lines 256-259, 272-286) *)

Definition warmup_text : string :=
  "Здравствуйте! 👋 У нас появились новые варианты. Готовы получить подборку?".

Definition scheduled_warmup (e : Env) : Handler unit :=
  mass_send e warmup_text NoMarkup.

(** [f"Всего пользователей: {count}"]: the count in decimal. *)
Definition stats_text (count : nat) : string :=
  "Всего пользователей: " ++ pretty count.

Definition cmd_stats (e : Env) (message : Message) : Handler unit :=
  if bool_decide (from_id message ≠ ADMIN_ID e) then mret tt
  else
    fun w =>
      answer e (chat_id message) (stats_text (get_user_count (users w))) NoMarkup w.

Definition broadcast_usage : string := "Использование: /broadcast текст".
Definition broadcast_done : string := "Рассылка завершена.".

Definition cmd_broadcast (e : Env) (message : Message) : Handler unit :=
  if bool_decide (from_id message ≠ ADMIN_ID e) then mret tt
  else
    match text message with
    | None => raise AttributeError
    | Some t =>
        let body := partition_space_2 t in
        if String.eqb body "" then
          answer e (chat_id message) broadcast_usage NoMarkup
        else
          mass_send e body NoMarkup;;
          answer e (chat_id message) broadcast_done NoMarkup
    end.

(** ** Registration order of the handlers *)

(** The command filters of the library, on a message. *)
Record Filters := mkFilters {
  CommandStart : Message -> bool;
  Command : string -> Message -> bool
}.

(** The message handlers with their filters, as the decorators register
    them (lines 99, 229, 244, 272, 278); [F.contact] holds when the message
    has a contact, and [dp.message()] has no filter. *)
Definition message_handlers (F : Filters) (str_lower : string -> string)
    : list ((Message -> bool) * (Env -> Message -> Handler unit)) :=
  [(CommandStart F, cmd_start);
   (fun m => bool_decide (is_Some (contact m)), handle_contact);
   (fun _ => true, smart_replies str_lower);
   (Command F "stats", cmd_stats);
   (Command F "broadcast", cmd_broadcast)].

(** The callback handlers with the prefix of [F.data.startswith]
    (lines 129, 139, 150, 162, 178, 195, 208, 218). *)
Definition callback_handlers (str_lower : string -> string)
    : list (string * (Env -> CallbackQuery -> Handler unit)) :=
  [("goal_", handle_goal);
   ("type_", handle_type);
   ("city_", handle_city str_lower);
   ("district_", handle_district);
   ("family_", handle_family);
   ("install_", handle_install);
   ("hd_", handle_handover);
   ("finish_", handle_finish)].

(** The router calls the first registered handler whose filter accepts the
    event; an event no filter accepts is dropped. *)
Definition dispatch_message (F : Filters) (str_lower : string -> string)
    (e : Env) (m : Message) : Handler unit :=
  match find (fun h => fst h m) (message_handlers F str_lower) with
  | Some h => snd h e m
  | None => mret tt
  end.

Definition dispatch_callback (str_lower : string -> string) (e : Env)
    (cb : CallbackQuery) : Handler unit :=
  match find (fun h => String.prefix (fst h) (cb_data cb))
             (callback_handlers str_lower) with
  | Some h => snd h e cb
  | None => mret tt
  end.

(** What the process reacts to: a message, a button press, the cron tick
    of the promotion. *)
Inductive event :=
  | MessageEvent (m : Message)
  | CallbackEvent (cb : CallbackQuery)
  | WarmupTick.

Definition handle_event (F : Filters) (str_lower : string -> string)
    (e : Env) (ev : event) : Handler unit :=
  match ev with
  | MessageEvent m => dispatch_message F str_lower e m
  | CallbackEvent cb => dispatch_callback str_lower e cb
  | WarmupTick => scheduled_warmup e
  end.

(** The events of a run, each with the outside world of its moment; an
    exception ends its handler only. *)
Definition polling (F : Filters) (str_lower : string -> string)
    (evs : list (Env * event)) (w : World) : World :=
  fold_left (fun acc ee => fst (handle_event F str_lower (fst ee) (snd ee) acc))
            evs w.

(** ** What the properties below speak of *)

(** The field a routed button press stores: column and value. *)
Definition stored_field (data : string) : option (column * string) :=
  match cut_underscore data with
  | None => None
  | Some (h, x) =>
      if String.eqb h "goal" then Some (c_goal, x)
      else if String.eqb h "type" then Some (c_property, x)
      else if String.eqb h "city" then Some (c_city, x)
      else if String.eqb h "district" then Some (c_district, x)
      else if String.eqb h "family" then
        Some (c_mortgage, if String.eqb x "yes" then "family" else "no_family")
      else if String.eqb h "install" then Some (c_mortgage, "install_" ++ x)
      else if String.eqb h "hd" then Some (c_handover, x)
      else if String.eqb h "finish" then Some (c_finishing, x)
      else None
  end.

(** A button press is routed when some callback filter accepts its data. *)
Definition routed (data : string) : bool :=
  existsb (fun p => String.prefix p data)
    ["goal_"; "type_"; "city_"; "district_"; "family_"; "install_"; "hd_"; "finish_"].

(** The callback buttons of a call. *)
Definition callback_data_of (c : api_call) : list string :=
  match c with
  | send_message _ _ (InlineKeyboardMarkup kb) =>
      omap (fun b => match b with
                     | CallbackButton _ d => Some d
                     | UrlButton _ _ => None
                     end) kb
  | _ => []
  end.

(** Every callback button of the call is routed. *)
Definition buttons_routed (c : api_call) : Prop :=
  Forall (fun d => routed d = true) (callback_data_of c).

(** A handler keeps a property of the world, on every outcome. *)
Definition preserves {A} (I : World -> Prop) (h : Handler A) : Prop :=
  ∀ w, I w → I (fst (h w)).

(** Filters for the examples: a command is the first word of the text. *)
Definition first_word_is (cmd : string) (m : Message) : bool :=
  match text m with
  | Some t => String.eqb t cmd || String.prefix (cmd ++ " ") t
  | None => false
  end.

Definition filters0 : Filters :=
  {| CommandStart := first_word_is "/start";
     Command := fun c => first_word_is ("/" ++ c) |}.

Definition admin_text (t : string) : Message :=
  {| from_id := 777; full_name := "Admin"; chat_id := 777;
     text := Some t; contact := None |}.

(** The row stored under [k] still has the id and the creation time of [r0]. *)
Definition row_kept (k : Z) (r0 : Row) (w : World) : Prop :=
  ∃ r, get k (users w) = Some r
       ∧ user_id r = user_id r0 ∧ created_at r = created_at r0.

(** Every callback button sent so far is routed. *)
Definition trace_routed (w : World) : Prop :=
  Forall (fun a => buttons_routed (fst a)) (trace w).

(** The scenario of section 8 as a run: start, the seven answers, the
    contact. *)
Definition happy_path : list (Env * event) :=
  map (fun ev => (env0 "member" [], ev))
    [MessageEvent start123;
     CallbackEvent (press123 "goal_invest");
     CallbackEvent (press123 "type_2");
     CallbackEvent (press123 "city_moscow");
     CallbackEvent (press123 "district_юго-западный");
     CallbackEvent (press123 "family_no");
     CallbackEvent (press123 "install_coast");
     CallbackEvent (press123 "hd_now");
     CallbackEvent (press123 "finish_ready");
     MessageEvent contact123].

(** * Properties *)

(** ** The store *)

Lemma update_row_col (fields : Fields) (r : Row) (c : column) :
  col c (update_row fields r) = set_cell fields c (col c r).
Proof. destruct c; reflexivity. Qed.

Lemma update_row_empty (r : Row) : update_row ∅ r = r.
Proof.
  destruct r. unfold update_row, set_cell. simpl.
  rewrite !lookup_empty. reflexivity.
Qed.

Lemma sql_update_empty (uid : Z) (t : Table) : sql_update uid ∅ t = t.
Proof.
  unfold sql_update. apply alter_id. intros r _. apply update_row_empty.
Qed.

Lemma ensure_insert (uid : Z) (now : string) (t : Table) :
  ensure uid now t = insert_or_ignore uid now t.
Proof. unfold ensure, upsert_user. rewrite decide_True by reflexivity. reflexivity. Qed.

(** A call of [upsert_user] is its insert followed by its update. *)
Lemma upsert_user_calls (uid : Z) (fields : Fields) (now : string) (t : Table) :
  upsert_user uid fields now t = run_calls [Ensure uid now; Update uid fields] t.
Proof.
  unfold run_calls. simpl. rewrite ensure_insert. unfold upsert_user.
  destruct (decide (fields = ∅)) as [->|Hne].
  - symmetry. apply sql_update_empty.
  - reflexivity.
Qed.

Lemma insert_or_ignore_lookup (uid : Z) (now : string) (t : Table) :
  insert_or_ignore uid now t !! uid =
  Some (match t !! uid with Some r => r | None => new_row uid now end).
Proof.
  unfold insert_or_ignore. destruct (t !! uid) eqn:E.
  - exact E.
  - apply lookup_insert_eq.
Qed.

Lemma insert_or_ignore_other (uid uid' : Z) (now : string) (t : Table) :
  uid ≠ uid' → insert_or_ignore uid now t !! uid' = t !! uid'.
Proof.
  intros Hne. unfold insert_or_ignore. destruct (t !! uid); [reflexivity|].
  apply lookup_insert_ne, Hne.
Qed.

Lemma upsert_user_lookup (uid : Z) (fields : Fields) (now : string) (t : Table) :
  upsert_user uid fields now t !! uid =
  Some (update_row fields
          (match t !! uid with Some r => r | None => new_row uid now end)).
Proof.
  rewrite upsert_user_calls. unfold run_calls. simpl.
  unfold sql_update. rewrite lookup_alter_eq, ensure_insert.
  rewrite insert_or_ignore_lookup. reflexivity.
Qed.

Lemma upsert_user_other (uid uid' : Z) (fields : Fields) (now : string) (t : Table) :
  uid ≠ uid' → upsert_user uid fields now t !! uid' = t !! uid'.
Proof.
  intros Hne. rewrite upsert_user_calls. unfold run_calls. simpl.
  unfold sql_update. rewrite lookup_alter_ne by exact Hne.
  rewrite ensure_insert. apply insert_or_ignore_other, Hne.
Qed.

(** C4: for an id with no record in the store, [ensure] followed by [get]
    returns a record whose id is that id, whose [created_at] is the time of
    the call, and whose name, goal, property, city, district, mortgage,
    handover, finishing and phone are all unset. *)
Theorem ensure_then_get (uid : Z) (now : string) (t : Table) :
  get uid t = None →
  ∃ r, get uid (ensure uid now t) = Some r
       ∧ user_id r = uid
       ∧ created_at r = Some now
       ∧ Forall (fun c => col c r = None) data_columns.
Proof.
  intros Hnew. exists (new_row uid now). unfold get in *.
  rewrite ensure_insert, insert_or_ignore_lookup, Hnew.
  repeat split. unfold data_columns. repeat constructor.
Qed.

Lemma ensure_then_get_witness :
  get 123 (∅ : Table) = None ∧
  ∃ r, get 123 (ensure 123 "2024-05-01T09:00:00" ∅) = Some r
       ∧ user_id r = 123
       ∧ created_at r = Some "2024-05-01T09:00:00"
       ∧ Forall (fun c => col c r = None) data_columns.
Proof.
  split; [reflexivity|]. apply (ensure_then_get 123 _ ∅). reflexivity.
Defined.

(** C5: [ensure] on an id that already has a record leaves the whole store
    as it was; the record read back is the old one, so [created_at] keeps
    the value of the first creation, whatever the time of the new call. *)
Theorem ensure_idempotent (uid : Z) (now : string) (t : Table) (r : Row) :
  get uid t = Some r →
  ensure uid now t = t
  ∧ get uid (ensure uid now t) = Some r
  ∧ created_at <$> get uid (ensure uid now t) = Some (created_at r).
Proof.
  intros Hr. unfold get in *.
  assert (ensure uid now t = t) as ->.
  { rewrite ensure_insert. unfold insert_or_ignore. rewrite Hr. reflexivity. }
  rewrite Hr. auto.
Qed.

Lemma ensure_idempotent_witness :
  get 123 (users world123) = Some lead123 ∧
  ensure 123 "2030-01-01T00:00:00" (users world123) = users world123.
Proof.
  split; [reflexivity|].
  apply (ensure_idempotent 123 "2030-01-01T00:00:00" (users world123) lead123).
  reflexivity.
Defined.

(** [ensure] twice is [ensure] once, for any store and any two times. *)
Lemma ensure_twice (uid : Z) (now1 now2 : string) (t : Table) :
  ensure uid now2 (ensure uid now1 t) = ensure uid now1 t.
Proof.
  rewrite !ensure_insert. unfold insert_or_ignore at 1.
  rewrite insert_or_ignore_lookup. reflexivity.
Qed.

(** C6: on an existing record, [update] (a call of [upsert_user] with the
    mapping [fields]) gives every named field the value of the mapping and
    leaves every field not named, the id, and every other record as they
    were; with an empty mapping nothing changes at all.  On such a record
    the call is its UPDATE statement alone. *)
Theorem update_frame (uid : Z) (fields : Fields) (now : string) (t : Table) (r : Row) :
  get uid t = Some r →
  ∃ r', get uid (upsert_user uid fields now t) = Some r'
        ∧ user_id r' = user_id r
        ∧ (∀ c v, fields !! c = Some v → col c r' = v)
        ∧ (∀ c, fields !! c = None → col c r' = col c r)
        ∧ (∀ uid', uid' ≠ uid →
             get uid' (upsert_user uid fields now t) = get uid' t)
        ∧ (fields = ∅ → upsert_user uid fields now t = t)
        ∧ upsert_user uid fields now t = sql_update uid fields t.
Proof.
  intros Hr. unfold get in *. exists (update_row fields r).
  rewrite upsert_user_lookup, Hr. split; [reflexivity|].
  split; [reflexivity|]. split; [|split; [|split; [|split]]].
  - intros c v Hc. rewrite update_row_col. unfold set_cell. rewrite Hc. reflexivity.
  - intros c Hc. rewrite update_row_col. unfold set_cell. rewrite Hc. reflexivity.
  - intros uid' Hne. apply upsert_user_other. congruence.
  - intros ->. fold (ensure uid now t). rewrite ensure_insert.
    unfold insert_or_ignore. rewrite Hr. reflexivity.
  - rewrite upsert_user_calls. unfold run_calls. simpl.
    rewrite ensure_insert. unfold insert_or_ignore. rewrite Hr. reflexivity.
Qed.

Lemma update_frame_witness :
  get 123 (users world123) = Some lead123 ∧
  ∃ r', get 123 (upsert_user 123 {[ c_phone := Some "+79990000000" ]}
                   "2030-01-01T00:00:00" (users world123)) = Some r'
        ∧ phone r' = Some "+79990000000"
        ∧ goal r' = Some "invest"
        ∧ created_at r' = Some "2024-05-01T08:55:00".
Proof.
  split; [reflexivity|].
  destruct (update_frame 123 {[ c_phone := Some "+79990000000" ]}
              "2030-01-01T00:00:00" (users world123) lead123 eq_refl)
    as (r' & Hget & _ & Hset & Hkeep & _).
  exists r'. split; [exact Hget|]. split; [|split].
  - apply (Hset c_phone). reflexivity.
  - apply (Hkeep c_goal). reflexivity.
  - apply (Hkeep c_created_at). reflexivity.
Defined.

Lemma dom_ensure (uid : Z) (now : string) (t : Table) :
  dom (ensure uid now t) = {[ uid ]} ∪ dom t.
Proof.
  rewrite ensure_insert. unfold insert_or_ignore.
  destruct (t !! uid) eqn:E.
  - assert (uid ∈ dom t) by (apply elem_of_dom; eauto). set_solver.
  - apply dom_insert_L.
Qed.

Lemma dom_sql_update (uid : Z) (fields : Fields) (t : Table) :
  dom (sql_update uid fields t) = dom t.
Proof. unfold sql_update. apply dom_alter_L. Qed.

Lemma dom_run_calls (cs : list store_call) (t : Table) :
  dom (run_calls cs t) = dom t ∪ ensured cs.
Proof.
  revert t. induction cs as [|c cs IH]; intros t.
  - simpl. set_solver.
  - change (run_calls (c :: cs) t) with (run_calls cs (run_call c t)).
    rewrite IH. destruct c as [uid now|uid fields]; simpl.
    + rewrite dom_ensure. set_solver.
    + rewrite dom_sql_update. reflexivity.
Qed.

Lemma dom_run_upserts (us : list (Z * Fields * string)) (t : Table) :
  dom (run_upserts us t) = dom t ∪ list_to_set (us.*1.*1).
Proof.
  revert t. induction us as [|[[uid fields] now] us IH]; intros t.
  - simpl. set_solver.
  - change (run_upserts ((uid, fields, now) :: us) t)
      with (run_upserts us (upsert_user uid fields now t)).
    rewrite IH, upsert_user_calls, dom_run_calls. simpl. set_solver.
Qed.

(** C7: after any sequence of [ensure] and [update] calls on a new store,
    [get_user_count] is the number of distinct ids passed to [ensure]; the
    [update] calls, however many per id, do not count.  For whole
    [upsert_user] calls, each of which passes its id to the insert with or
    without fields, it is the number of distinct ids passed. *)
Theorem count_distinct_ensured :
  (∀ cs : list store_call,
     get_user_count (run_calls cs ∅) = size (ensured cs))
  ∧ (∀ us : list (Z * Fields * string),
       get_user_count (run_upserts us ∅) = size (list_to_set (us.*1.*1) : gset Z)).
Proof.
  unfold get_user_count. split.
  - intros cs. rewrite <- (size_dom (D := gset Z)), dom_run_calls, dom_empty_L.
    f_equal. set_solver.
  - intros us. rewrite <- (size_dom (D := gset Z)), dom_run_upserts, dom_empty_L.
    f_equal. set_solver.
Qed.

Example count_two_ids :
  get_user_count
    (run_calls [Ensure 1 "t1"; Update 1 {[ c_goal := Some "live" ]};
                Update 1 {[ c_goal := Some "invest" ]}; Ensure 2 "t2";
                Ensure 1 "t3"; Update 5 {[ c_city := Some "spb" ]}] ∅) = 2%nat.
Proof. vm_compute. reflexivity. Qed.

Example count_upserts :
  get_user_count
    (run_upserts [(1, {[ c_name := Some "Ann" ]}, "t1");
                  (1, {[ c_goal := Some "invest" ]}, "t2");
                  (2, ∅, "t3"); (1, ∅, "t4")] ∅) = 2%nat.
Proof. vm_compute. reflexivity. Qed.

(** ** The conversation handlers *)

Ltac run_handler :=
  unfold mbind, Handler_bind, mret, Handler_ret, raise, answer, call,
    do_upsert, fetchone; simpl.

Lemma payload_install (loc : string) : payload ("install_" ++ loc) = mret loc.
Proof. reflexivity. Qed.

Lemma set_one_col (c c' : column) (v old : cell) :
  set_cell {[ c := v ]} c' old = if decide (c = c') then v else old.
Proof.
  unfold set_cell. destruct (decide (c = c')) as [->|Hne].
  - rewrite lookup_singleton_eq. reflexivity.
  - rewrite lookup_singleton_ne by exact Hne. reflexivity.
Qed.

(** C2 (as amended): a first [/start] from a new id that is not a member,
    creator or administrator of the channel gets the join prompt and no
    other message, and the stored record holds the id, [created_at] and
    the display name; no other field is written. *)
Theorem cmd_start_not_subscribed (e : Env) (m : Message) (w : World)
    (status : string) :
  get (from_id m) (users w) = None →
  get_chat_member e (from_id m) = Some status →
  status ∉ ["member"; "creator"; "administrator"] →
  transport e (send_message (chat_id m) join_prompt join_keyboard) = true →
  snd (cmd_start e m w) = inr tt
  ∧ trace (fst (cmd_start e m w)) =
      (trace w ++ [(send_message (chat_id m) join_prompt join_keyboard, true)])%list
  ∧ get (from_id m) (users (fst (cmd_start e m w))) =
      Some (started_row (from_id m) (full_name m) (utcnow e)).
Proof.
  intros Hnew Hst Hout Hok. unfold get in *.
  assert (is_subscribed status = false) as Hsub.
  { unfold is_subscribed. apply bool_decide_eq_false. exact Hout. }
  unfold cmd_start. run_handler. rewrite Hst. simpl. rewrite Hsub. simpl.
  rewrite Hok. simpl. split; [reflexivity|]. split; [reflexivity|].
  rewrite upsert_user_lookup, Hnew. reflexivity.
Qed.

Lemma cmd_start_not_subscribed_witness :
  snd (cmd_start (env0 "left" []) start123 world0) = inr tt
  ∧ trace (fst (cmd_start (env0 "left" []) start123 world0)) =
      [(send_message 123 join_prompt join_keyboard, true)]
  ∧ get 123 (users (fst (cmd_start (env0 "left" []) start123 world0))) =
      Some (started_row 123 "Ann" "2024-05-01T09:00:00").
Proof.
  apply (cmd_start_not_subscribed (env0 "left" []) start123 world0 "left").
  - reflexivity.
  - reflexivity.
  - intros H. apply list_elem_of_In in H. simpl in H.
    repeat (destruct H as [H|H]; [discriminate H|]). exact H.
  - reflexivity.
Defined.

(** C2 as stated fails: the name is written before the membership check,
    so the record is not the one holding only id and [created_at]. *)
Lemma cmd_start_only_id_and_created_at_counterexample :
  get 123 (users world0) = None
  ∧ get_chat_member (env0 "left" []) 123 = Some "left"
  ∧ is_subscribed "left" = false
  ∧ name <$> get 123 (users (fst (cmd_start (env0 "left" []) start123 world0)))
    = Some (Some "Ann")
  ∧ get 123 (users (fst (cmd_start (env0 "left" []) start123 world0)))
    ≠ Some (new_row 123 "2024-05-01T09:00:00").
Proof.
  repeat split; try reflexivity.
  intros H. vm_compute in H. discriminate H.
Qed.

Lemma handle_family_no (e : Env) (cb : CallbackQuery) (w : World) :
  cb_data cb = "family_no" →
  mortgage <$> get (cb_from cb) (users (fst (handle_family e cb w)))
  = Some (Some "no_family").
Proof.
  intros Hd. unfold handle_family, get. rewrite Hd. run_handler.
  assert (∀ w' : World * (exn + unit),
            users (fst w') = upsert_user (cb_from cb)
                               {[ c_mortgage := Some "no_family" ]}
                               (utcnow e) (users w) →
            mortgage <$> users (fst w') !! cb_from cb = Some (Some "no_family")) as H.
  { intros w' ->. rewrite upsert_user_lookup. reflexivity. }
  apply H. destruct (transport e (send_message _ _ _)); reflexivity.
Qed.

(** C3 (as amended): for a user whose financing is ["no_family"], selecting
    the installment location [loc] overwrites it with ["install_"] followed
    by [loc], leaves the other fields alone, and the next message sent is
    the handover prompt. *)
Theorem handle_install_overwrites (e : Env) (cb : CallbackQuery) (w : World)
    (r : Row) (loc : string) :
  cb_data cb = "install_" ++ loc →
  get (cb_from cb) (users w) = Some r →
  mortgage r = Some "no_family" →
  ∃ r', get (cb_from cb) (users (fst (handle_install e cb w))) = Some r'
        ∧ mortgage r' = Some ("install_" ++ loc)
        ∧ (∀ c, c ≠ c_mortgage → col c r' = col c r)
        ∧ ∃ rest,
            trace (fst (handle_install e cb w)) =
            (trace w
               ++ (send_message (cb_chat cb) handover_prompt handover_keyboard,
                   transport e (send_message (cb_chat cb) handover_prompt
                                  handover_keyboard))
               :: rest)%list.
Proof.
  intros Hd Hr _. unfold get in *.
  exists (update_row {[ c_mortgage := Some ("install_" ++ loc) ]} r).
  unfold handle_install. rewrite Hd, payload_install.
  unfold ask_handover. fold handover_keyboard. run_handler.
  destruct (transport e (send_message _ _ _)) eqn:Hok; simpl.
  - destruct (transport e (answer_callback _)); simpl;
      rewrite upsert_user_lookup, Hr; (split; [reflexivity|]);
      (split; [reflexivity|]);
      (split; [intros c Hc; rewrite update_row_col, set_one_col;
               destruct (decide (c_mortgage = c)); congruence|]);
      eexists; rewrite <- app_assoc; reflexivity.
  - rewrite upsert_user_lookup, Hr. split; [reflexivity|].
    split; [reflexivity|].
    split; [intros c Hc; rewrite update_row_col, set_one_col;
            destruct (decide (c_mortgage = c)); congruence|].
    exists []. reflexivity.
Qed.

Lemma handle_install_overwrites_witness :
  let e := env0 "member" [] in
  let w1 := fst (handle_family e (press123 "family_no") world123) in
  mortgage <$> get 123 (users w1) = Some (Some "no_family")
  ∧ ∃ r', get 123 (users (fst (handle_install e (press123 "install_coast") w1)))
          = Some r'
          ∧ mortgage r' = Some "install_coast".
Proof.
  intros e w1. split; [reflexivity|].
  destruct (handle_install_overwrites e (press123 "install_coast") w1
              (update_row {[ c_mortgage := Some "no_family" ]} lead123) "coast"
              eq_refl eq_refl eq_refl)
    as (r' & Hget & Hm & _).
  exists r'. split; [exact Hget | exact Hm].
Defined.

(** C3 as stated fails: the value written is ["install_coast"], not
    ["installment_coast"]. *)
Lemma handle_install_installment_counterexample :
  let e := env0 "member" [] in
  let w1 := fst (handle_family e (press123 "family_no") world123) in
  let w2 := fst (handle_install e (press123 "install_coast") w1) in
  mortgage <$> get 123 (users w1) = Some (Some "no_family")
  ∧ mortgage <$> get 123 (users w2) = Some (Some "install_coast")
  ∧ mortgage <$> get 123 (users w2) ≠ Some (Some ("installment_" ++ "coast")).
Proof.
  intros e w1 w2. split; [reflexivity|]. split; [reflexivity|].
  intros H. vm_compute in H. discriminate H.
Qed.

(** The first call of [handle_contact] after its write is the message to
    the admin, and its text is the header whatever the record holds. *)
Lemma handle_contact_admin_call (e : Env) (msg : Message) (w : World) (p : string) :
  contact msg = Some p →
  ∃ rest,
    trace (fst (handle_contact e msg w)) =
    (trace w ++ (send_message (ADMIN_ID e) admin_header NoMarkup,
                 transport e (send_message (ADMIN_ID e) admin_header NoMarkup))
       :: rest)%list.
Proof.
  intros Hc. unfold handle_contact. rewrite Hc. run_handler.
  unfold get. rewrite upsert_user_lookup. simpl.
  destruct (transport e (send_message (ADMIN_ID e) _ _)); simpl.
  - destruct (path_exists e PDF_FILE_PATH); run_handler.
    + destruct (transport e (send_document _ _ _)); simpl.
      * eexists. rewrite <- !app_assoc. reflexivity.
      * eexists. rewrite <- !app_assoc. reflexivity.
    + eexists. rewrite <- !app_assoc. reflexivity.
  - exists []. reflexivity.
Qed.

(** C1, evaluated at Lead(123) of the scenario sharing +79990000000: the
    phone is stored and the record then holds all eight values; the one
    message sent to the admin is the bare header, which contains none of
    them, while the header joined with [parts] would contain every one;
    the user gets the thank-you message. *)
Theorem handle_contact_admin_message_lacks_values :
  let e := env0 "member" [] in
  let w' := fst (handle_contact e contact123 world123) in
  ∃ row,
    get 123 (users w') = Some row
    ∧ captured_values row =
        ["invest"; "2"; "moscow"; "юго-западный"; "install_coast"; "now";
         "ready"; "+79990000000"]
    ∧ texts_to (ADMIN_ID e) w' = [admin_header]
    ∧ forallb (fun v => negb (contains v admin_header)) (captured_values row) = true
    ∧ forallb (fun v => contains v (header_and_parts row)) (captured_values row) = true
    ∧ texts_to 123 w' = [thanks].
Proof.
  intros e w'. eexists. split; [vm_compute; reflexivity|].
  repeat split; vm_compute; reflexivity.
Qed.

(** ** The broadcast *)

Lemma for_each_sends (e : Env) (body : string) (kb : markup) (l : list Z) (w : World) :
  for_each l (fun uid => try_except (call e (send_message uid body kb))) w =
  ({| users := users w;
      trace := trace w ++ map (broadcast_attempt e body kb) l |}, inr tt).
Proof.
  revert w. induction l as [|uid l IH]; intros [t tr]; simpl.
  - rewrite app_nil_r. reflexivity.
  - unfold mbind, Handler_bind, try_except at 1. simpl.
    rewrite IH. simpl. rewrite <- app_assoc. reflexivity.
Qed.

Lemma iterate_users_known (t : Table) (uid : Z) :
  uid ∈ iterate_users t ↔ is_Some (get uid t).
Proof.
  unfold iterate_users, get. rewrite list_elem_of_fmap. split.
  - intros ([k r] & -> & Hin). apply elem_of_map_to_list in Hin. eauto.
  - intros [r Hr]. exists (uid, r). split; [reflexivity|].
    apply elem_of_map_to_list. exact Hr.
Qed.

(** C8: [mass_send] returns normally with no value, whatever the transport
    does; it makes one delivery attempt per known id, in iteration order,
    each id once, a refused delivery being followed by the attempts for the
    remaining ids; the store is not changed. *)
Theorem mass_send_attempts_all (e : Env) (body : string) (kb : markup) (w : World) :
  snd (mass_send e body kb w) = inr tt
  ∧ users (fst (mass_send e body kb w)) = users w
  ∧ trace (fst (mass_send e body kb w)) =
      (trace w ++ map (broadcast_attempt e body kb) (iterate_users (users w)))%list
  ∧ NoDup (iterate_users (users w))
  ∧ (∀ uid, is_Some (get uid (users w)) →
       broadcast_attempt e body kb uid ∈ trace (fst (mass_send e body kb w))).
Proof.
  unfold mass_send. rewrite for_each_sends. simpl.
  split; [reflexivity|]. split; [reflexivity|]. split; [reflexivity|].
  split; [apply NoDup_fst_map_to_list|].
  intros uid Hk. apply elem_of_app. right.
  apply list_elem_of_fmap. exists uid. split; [reflexivity|].
  apply iterate_users_known, Hk.
Qed.

(** The scenario of section 8: three known ids, delivery to id 2 raises;
    ids 1 and 3 still get the message and the dispatcher returns. *)
Example mass_send_one_blocked :
  let r := mass_send (env0 "member" [2]) "hello" NoMarkup world3 in
  snd r = inr tt
  ∧ length (attempted (fst r)) = 3%nat
  ∧ delivered (fst r) ≡ₚ
      [send_message 1 "hello" NoMarkup; send_message 3 "hello" NoMarkup].
Proof.
  intros r. split; [reflexivity|]. split; [reflexivity|].
  assert (delivered (fst r) =
          [send_message 3 "hello" NoMarkup; send_message 1 "hello" NoMarkup]) as ->
    by (vm_compute; reflexivity).
  apply perm_swap.
Qed.

(** ** The catch-all responder *)

(** C9: on a message with text, [smart_replies] sends one message: the
    canned reply of the first keyword group (sea/coast, price/cost,
    mortgage/installment, in this order) one of whose keywords is contained
    in the text, compared in lower case, or the generic acknowledgement when
    no group matches.  The log of transport calls grows by exactly this
    [send_message] to the chat of the message, and the handler returns
    normally when the transport delivers it; the store is left as it was
    and the outcome is the same for any store. *)
Theorem smart_replies_first_match (str_lower : string -> string) (e : Env)
    (m : Message) (w : World) (t : string) :
  Forall (fun k => str_lower k = k) all_keywords →
  text m = Some t →
  smart_replies str_lower e m w
  = answer e (chat_id m) (canned_reply str_lower t) NoMarkup w
  ∧ trace (fst (smart_replies str_lower e m w)) =
      (trace w
         ++ [(send_message (chat_id m) (canned_reply str_lower t) NoMarkup,
              transport e
                (send_message (chat_id m) (canned_reply str_lower t) NoMarkup))])%list
  ∧ snd (smart_replies str_lower e m w) =
      (if transport e
            (send_message (chat_id m) (canned_reply str_lower t) NoMarkup)
       then inr tt else inl TelegramAPIError)
  ∧ users (fst (smart_replies str_lower e m w)) = users w
  ∧ (∀ tbl : Table,
       let w2 := {| users := tbl; trace := trace w |} in
       trace (fst (smart_replies str_lower e m w2))
       = trace (fst (smart_replies str_lower e m w))
       ∧ snd (smart_replies str_lower e m w2)
         = snd (smart_replies str_lower e m w)).
Proof.
  intros Hkw Ht.
  assert (∀ w0, smart_replies str_lower e m w0
                = answer e (chat_id m) (canned_reply str_lower t) NoMarkup w0) as Heq.
  { intros w0. unfold smart_replies, canned_reply, keyword_groups, matches_ci.
    rewrite Ht. unfold all_keywords, keyword_groups in Hkw. simpl in Hkw.
    repeat match goal with
           | H : Forall _ (_ :: _) |- _ =>
               let Hk := fresh "Hk" in
               apply Forall_cons in H; destruct H as [Hk H]
           end.
    unfold any_in. simpl. rewrite Hk, Hk0, Hk1, Hk2, Hk3, Hk4.
    destruct (contains "море" (str_lower t) || _); [reflexivity|].
    destruct (contains "цена" (str_lower t) || _); [reflexivity|].
    destruct (contains "ипотек" (str_lower t) || _); reflexivity. }
  split; [apply Heq|]. split; [|split; [|split]].
  - rewrite Heq. run_handler. reflexivity.
  - rewrite Heq. run_handler. reflexivity.
  - rewrite Heq. run_handler. reflexivity.
  - intros tbl w2. rewrite !Heq. run_handler. split; reflexivity.
Qed.

Lemma smart_replies_first_match_witness :
  let m := text123 "Какая ЦЕНА на Побережье?" in
  Forall (fun k => lower_ru k = k) all_keywords
  ∧ canned_reply lower_ru "Какая ЦЕНА на Побережье?" = reply_sea
  ∧ trace (fst (smart_replies lower_ru (env0 "member" []) m world123))
    = [(send_message 123 reply_sea NoMarkup, true)]
  ∧ snd (smart_replies lower_ru (env0 "member" []) m world123) = inr tt
  ∧ users (fst (smart_replies lower_ru (env0 "member" []) m world123))
    = users world123.
Proof.
  intros m.
  assert (Forall (fun k => lower_ru k = k) all_keywords) as Hkw.
  { unfold all_keywords, keyword_groups. simpl.
    repeat (apply Forall_cons_2; [vm_compute; reflexivity|]).
    apply Forall_nil_2. }
  split; [exact Hkw|]. split; [vm_compute; reflexivity|].
  destruct (smart_replies_first_match lower_ru (env0 "member" []) m world123
              "Какая ЦЕНА на Побережье?" Hkw eq_refl)
    as (_ & Htr & Hres & Husers & _).
  split; [|split].
  - rewrite Htr. vm_compute. reflexivity.
  - rewrite Hres. vm_compute. reflexivity.
  - exact Husers.
Defined.

Example smart_replies_price :
  canned_reply lower_ru "Сколько СТОИМОСТЬ квартиры?" = reply_price.
Proof. vm_compute. reflexivity. Qed.

Example smart_replies_mortgage :
  canned_reply lower_ru "Есть ли Рассрочка?" = reply_mortgage.
Proof. vm_compute. reflexivity. Qed.

Example smart_replies_generic :
  canned_reply lower_ru "Hello" = reply_generic.
Proof. vm_compute. reflexivity. Qed.

(** C10: on a message without text, [smart_replies] raises at
    [message.text.lower()]: the outcome is the exception, no call is made
    to the transport and the world is as before; such a message exists. *)
Theorem smart_replies_no_text (str_lower : string -> string) (e : Env)
    (m : Message) (w : World) :
  text m = None →
  smart_replies str_lower e m w = (w, inl AttributeError).
Proof. intros Ht. unfold smart_replies. rewrite Ht. reflexivity. Qed.

Lemma smart_replies_no_text_witness :
  text sticker123 = None
  ∧ smart_replies lower_ru (env0 "member" []) sticker123 world123
    = (world123, inl AttributeError).
Proof.
  split; [reflexivity|].
  apply (smart_replies_no_text lower_ru (env0 "member" []) sticker123 world123).
  reflexivity.
Defined.

(** ** More on the store *)

Lemma upsert_user_alt (uid : Z) (fields : Fields) (now : string) (t : Table) :
  upsert_user uid fields now t = sql_update uid fields (insert_or_ignore uid now t).
Proof.
  rewrite upsert_user_calls. unfold run_calls. simpl.
  rewrite ensure_insert. reflexivity.
Qed.

Lemma set_cell_union (f2 f1 : Fields) (c : column) (old : cell) :
  set_cell (f2 ∪ f1) c old = set_cell f2 c (set_cell f1 c old).
Proof.
  unfold set_cell. rewrite lookup_union.
  destruct (f2 !! c), (f1 !! c); reflexivity.
Qed.

Lemma update_row_union (f2 f1 : Fields) (r : Row) :
  update_row f2 (update_row f1 r) = update_row (f2 ∪ f1) r.
Proof.
  unfold update_row. simpl. rewrite !set_cell_union. reflexivity.
Qed.

(** X1: two calls of [upsert_user] on the same id are one call with the
    fields merged, the later value winning for a field named twice; the
    time of the second call is not used, so [created_at] stays that of the
    first. *)
Theorem upsert_user_twice (uid : Z) (f1 f2 : Fields) (now1 now2 : string)
    (t : Table) :
  upsert_user uid f2 now2 (upsert_user uid f1 now1 t)
  = upsert_user uid (f2 ∪ f1) now1 t.
Proof.
  apply map_eq. intros k. destruct (decide (uid = k)) as [<-|Hne].
  - rewrite !upsert_user_lookup. rewrite update_row_union. reflexivity.
  - rewrite !upsert_user_other by exact Hne. reflexivity.
Qed.

(** X2: calls of [upsert_user] on different ids commute. *)
Theorem upsert_user_commute (uid1 uid2 : Z) (f1 f2 : Fields)
    (now1 now2 : string) (t : Table) :
  uid1 ≠ uid2 →
  upsert_user uid1 f1 now1 (upsert_user uid2 f2 now2 t)
  = upsert_user uid2 f2 now2 (upsert_user uid1 f1 now1 t).
Proof.
  intros Hne. apply map_eq. intros k.
  destruct (decide (uid1 = k)) as [<-|H1].
  - rewrite upsert_user_lookup.
    rewrite (upsert_user_other uid2 uid1) by congruence.
    rewrite (upsert_user_other uid2 uid1) by congruence.
    rewrite upsert_user_lookup. reflexivity.
  - rewrite (upsert_user_other uid1 k) by exact H1.
    destruct (decide (uid2 = k)) as [<-|H2].
    + rewrite !upsert_user_lookup.
      rewrite (upsert_user_other uid1 uid2) by exact Hne. reflexivity.
    + rewrite !upsert_user_other by assumption. reflexivity.
Qed.

Lemma upsert_user_commute_witness :
  upsert_user 1 {[ c_goal := Some "live" ]} "t1"
    (upsert_user 2 {[ c_city := Some "spb" ]} "t2" ∅)
  = upsert_user 2 {[ c_city := Some "spb" ]} "t2"
      (upsert_user 1 {[ c_goal := Some "live" ]} "t1" ∅).
Proof.
  apply (upsert_user_commute 1 2). intros H. discriminate H.
Defined.

(** ** More on strings *)

Lemma append_nil_l (s : string) : "" ++ s = s.
Proof. reflexivity. Qed.

Lemma append_cons (c : ascii) (a s : string) : String c a ++ s = String c (a ++ s).
Proof. reflexivity. Qed.

Lemma prefix_app (p x : string) : String.prefix p (p ++ x) = true.
Proof.
  induction p as [|a p IH].
  - rewrite append_nil_l. destruct x; reflexivity.
  - rewrite append_cons. simpl.
    destruct (ascii_dec a a) as [_|Hn]; [exact IH|congruence].
Qed.

Lemma prefix_split (p s : string) :
  String.prefix p s = true → ∃ x, s = p ++ x.
Proof.
  revert s. induction p as [|a p IH]; intros s H.
  - exists s. reflexivity.
  - destruct s as [|b s]; simpl in H; [discriminate H|].
    destruct (ascii_dec a b) as [->|_]; [|discriminate H].
    destruct (IH s H) as [x ->]. exists x. reflexivity.
Qed.

Lemma cut_underscore_join (s h x : string) :
  cut_underscore s = Some (h, x) → s = h ++ "_" ++ x.
Proof.
  revert h. induction s as [|a s IH]; intros h H; simpl in H.
  - discriminate H.
  - destruct (Ascii.eqb a "_") eqn:Ea.
    + apply Ascii.eqb_eq in Ea. injection H as <- <-. subst a. reflexivity.
    + destruct (cut_underscore s) as [[h' x']|]; [|discriminate H].
      injection H as <- <-. rewrite (IH h' eq_refl). reflexivity.
Qed.

Lemma contains_prefix (k t : string) :
  String.prefix k t = true → contains k t = true.
Proof. intros H. destruct t; cbn [contains]; rewrite H; reflexivity. Qed.

Lemma contains_app (a k b : string) : contains k (a ++ k ++ b) = true.
Proof.
  induction a as [|c a IH].
  - rewrite append_nil_l. apply contains_prefix, prefix_app.
  - rewrite append_cons. cbn [contains]. rewrite IH. destruct (String.prefix k _); reflexivity.
Qed.

Lemma contains_split (k t : string) :
  contains k t = true → ∃ a b, t = a ++ k ++ b.
Proof.
  induction t as [|c t IH]; cbn [contains]; intros H.
  - destruct (String.prefix k "") eqn:E; [|discriminate H].
    destruct (prefix_split _ _ E) as [x Hx]. exists "", x. exact Hx.
  - destruct (String.prefix k (String c t)) eqn:E.
    + destruct (prefix_split _ _ E) as [x Hx]. exists "", x. exact Hx.
    + destruct (IH H) as (a & b & ->). exists (String c a), b. reflexivity.
Qed.

(** ** Properties kept by every handler *)

Lemma preserves_ret {A} (I : World → Prop) (x : A) : preserves I (mret x).
Proof. intros w Hw. exact Hw. Qed.

Lemma preserves_raise {A} (I : World → Prop) (ex : exn) :
  preserves I (@raise A ex).
Proof. intros w Hw. exact Hw. Qed.

Lemma preserves_bind {A B} (I : World → Prop) (m : Handler A)
    (f : A → Handler B) :
  preserves I m → (∀ a, preserves I (f a)) → preserves I (m ≫= f).
Proof.
  intros Hm Hf w Hw. unfold mbind, Handler_bind.
  specialize (Hm w Hw). destruct (m w) as [w' [ex|a]]; simpl in *.
  - exact Hm.
  - apply Hf, Hm.
Qed.

Lemma preserves_payload (I : World → Prop) (data : string) :
  preserves I (payload data).
Proof.
  unfold payload. destruct (split_underscore_1 data !! 1%nat).
  - apply preserves_ret.
  - apply preserves_raise.
Qed.

Lemma preserves_fetchone (I : World → Prop) (uid : Z) :
  preserves I (fetchone uid).
Proof.
  intros w Hw. unfold fetchone. destruct (get uid (users w)); exact Hw.
Qed.

Lemma preserves_try (I : World → Prop) (body : Handler unit) :
  preserves I body → preserves I (try_except body).
Proof. intros Hb w Hw. apply Hb, Hw. Qed.

Lemma preserves_for_each {A} (I : World → Prop) (l : list A)
    (body : A → Handler unit) :
  (∀ x, preserves I (body x)) → preserves I (for_each l body).
Proof.
  intros Hb. induction l as [|x l IH]; simpl.
  - apply preserves_ret.
  - apply preserves_bind; [apply Hb|intros _; exact IH].
Qed.

Lemma routed_district (x : string) : routed ("district_" ++ x) = true.
Proof.
  unfold routed. apply existsb_exists. exists "district_".
  split; [simpl; tauto|apply prefix_app].
Qed.

Lemma district_buttons_routed (str_lower : string → string) (chat : Z)
    (body : string) (l : list string) :
  buttons_routed
    (send_message chat body
       (InlineKeyboardMarkup (map (district_button str_lower) l))).
Proof.
  unfold buttons_routed. simpl.
  induction l as [|d l IH]; simpl.
  - constructor.
  - constructor; [apply routed_district|exact IH].
Qed.

Section Kept.
Variable I : World → Prop.
Hypothesis Hcall : ∀ e c, buttons_routed c → preserves I (call e c).
Hypothesis Hupsert :
  ∀ e uid (f : Fields), f !! c_created_at = None → preserves I (do_upsert e uid f).

Local Ltac kept :=
  repeat first
    [ apply preserves_ret | apply preserves_raise | apply preserves_payload
    | apply preserves_fetchone
    | apply Hupsert; apply lookup_singleton_ne; discriminate
    | apply Hcall; first [ apply district_buttons_routed
                         | unfold buttons_routed; simpl; repeat constructor ]
    | apply preserves_bind; [|intros ?]
    | match goal with
      | |- preserves _ (if ?b then _ else _) => destruct b
      | |- preserves _ (match ?x with _ => _ end) => destruct x
      end ].

Lemma kept_mass_send (e : Env) (body : string) :
  preserves I (mass_send e body NoMarkup).
Proof.
  intros w Hw. unfold mass_send.
  apply (preserves_for_each I); [|exact Hw].
  intros uid. apply preserves_try. kept.
Qed.

Lemma kept_cmd_start (e : Env) (m : Message) : preserves I (cmd_start e m).
Proof. unfold cmd_start, ask_goal, answer. kept. Qed.

Lemma kept_handle_contact (e : Env) (m : Message) :
  preserves I (handle_contact e m).
Proof. unfold handle_contact, answer. kept. Qed.

Lemma kept_smart_replies (str_lower : string → string) (e : Env) (m : Message) :
  preserves I (smart_replies str_lower e m).
Proof. unfold smart_replies, answer. kept. Qed.

Lemma kept_cmd_stats (e : Env) (m : Message) : preserves I (cmd_stats e m).
Proof.
  unfold cmd_stats, answer. destruct (bool_decide _); [apply preserves_ret|].
  intros w Hw. apply Hcall; [|exact Hw]. constructor.
Qed.

Lemma kept_cmd_broadcast (e : Env) (m : Message) :
  preserves I (cmd_broadcast e m).
Proof.
  unfold cmd_broadcast, answer. destruct (bool_decide _); [apply preserves_ret|].
  destruct (text m); [|apply preserves_raise].
  destruct (String.eqb _ _); [kept|].
  apply preserves_bind; [apply kept_mass_send|intros _; kept].
Qed.

Lemma kept_dispatch_message (F : Filters) (str_lower : string → string)
    (e : Env) (m : Message) :
  preserves I (dispatch_message F str_lower e m).
Proof.
  unfold dispatch_message, message_handlers. simpl.
  destruct (CommandStart F m); [apply kept_cmd_start|].
  destruct (bool_decide _); [apply kept_handle_contact|].
  apply kept_smart_replies.
Qed.

Lemma kept_dispatch_callback (str_lower : string → string) (e : Env)
    (cb : CallbackQuery) :
  preserves I (dispatch_callback str_lower e cb).
Proof.
  unfold dispatch_callback, callback_handlers. simpl.
  repeat (destruct (String.prefix _ (cb_data cb));
          [simpl;
           unfold handle_goal, handle_type, handle_city, handle_district,
             handle_family, handle_install, handle_handover, handle_finish,
             ask_mortgage, ask_handover, answer; kept|]).
  apply preserves_ret.
Qed.

Lemma kept_handle_event (F : Filters) (str_lower : string → string)
    (e : Env) (ev : event) :
  preserves I (handle_event F str_lower e ev).
Proof.
  destruct ev as [m|cb|]; simpl.
  - apply kept_dispatch_message.
  - apply kept_dispatch_callback.
  - apply kept_mass_send.
Qed.

Lemma kept_polling (F : Filters) (str_lower : string → string)
    (evs : list (Env * event)) (w : World) :
  I w → I (polling F str_lower evs w).
Proof.
  revert w. induction evs as [|[e ev] evs IH]; intros w Hw.
  - exact Hw.
  - apply IH. apply kept_handle_event, Hw.
Qed.
End Kept.

Lemma row_kept_call (k : Z) (r0 : Row) (e : Env) (c : api_call) :
  preserves (row_kept k r0) (call e c).
Proof. intros w Hw. exact Hw. Qed.

Lemma row_kept_upsert (k : Z) (r0 : Row) (e : Env) (uid : Z) (f : Fields) :
  f !! c_created_at = None → preserves (row_kept k r0) (do_upsert e uid f).
Proof.
  intros Hf w (r & Hr & Hid & Hat). unfold row_kept, get in *. simpl.
  destruct (decide (uid = k)) as [->|Hne].
  - rewrite upsert_user_lookup, Hr. eexists. split; [reflexivity|].
    split; [exact Hid|]. simpl. unfold set_cell. rewrite Hf. exact Hat.
  - rewrite upsert_user_other by exact Hne. eauto.
Qed.

Lemma polling_row_kept (F : Filters) (str_lower : string → string)
    (evs : list (Env * event)) (w : World) (k : Z) (r0 : Row) :
  get k (users w) = Some r0 → row_kept k r0 (polling F str_lower evs w).
Proof.
  intros Hr. apply kept_polling.
  - intros e c _. apply row_kept_call.
  - intros e uid f Hf. apply row_kept_upsert, Hf.
  - exists r0. auto.
Qed.

(** X3: whatever events arrive, a row of the table is never removed, and
    its [user_id] and [created_at] never change. *)
Theorem polling_keeps_rows (F : Filters) (str_lower : string → string)
    (evs : list (Env * event)) (w : World) (k : Z) (r0 : Row) :
  get k (users w) = Some r0 →
  ∃ r, get k (users (polling F str_lower evs w)) = Some r
       ∧ user_id r = user_id r0 ∧ created_at r = created_at r0.
Proof. apply polling_row_kept. Qed.

Lemma polling_keeps_rows_witness :
  get 123 (users world123) = Some lead123
  ∧ ∃ r, get 123 (users (polling filters0 lower_ru happy_path world123)) = Some r
         ∧ user_id r = 123 ∧ created_at r = Some "2024-05-01T08:55:00".
Proof.
  split; [reflexivity|].
  apply (polling_keeps_rows filters0 lower_ru happy_path world123 123 lead123).
  reflexivity.
Defined.

(** X4: the count of [get_user_count] never decreases along a run. *)
Theorem polling_count_monotone (F : Filters) (str_lower : string → string)
    (evs : list (Env * event)) (w : World) :
  (get_user_count (users w) ≤ get_user_count (users (polling F str_lower evs w)))%nat.
Proof.
  unfold get_user_count.
  rewrite <- !(size_dom (D := gset Z)). apply subseteq_size.
  intros k Hk. apply elem_of_dom in Hk as [r0 Hr0].
  destruct (polling_row_kept F str_lower evs w k r0 Hr0) as (r & Hr & _).
  apply elem_of_dom. exists r. exact Hr.
Qed.

(** X6: every callback button the handlers send carries a payload that
    some callback handler accepts: when this holds of the messages sent so
    far, it holds after any run. *)
Theorem polling_buttons_routed (F : Filters) (str_lower : string → string)
    (evs : list (Env * event)) (w : World) :
  trace_routed w → trace_routed (polling F str_lower evs w).
Proof.
  apply kept_polling.
  - intros e c Hc w' Hw'. unfold trace_routed, call in *. simpl.
    apply Forall_app. split; [exact Hw'|]. constructor; [exact Hc|constructor].
  - intros e uid f _ w' Hw'. exact Hw'.
Qed.

Lemma polling_buttons_routed_witness :
  trace_routed world0
  ∧ trace_routed (polling filters0 lower_ru happy_path world0).
Proof.
  assert (trace_routed world0) as H0 by constructor.
  split; [exact H0|].
  apply (polling_buttons_routed filters0 lower_ru happy_path world0 H0).
Defined.

(** The run of the scenario from the empty table ends with all eight
    values stored. *)
Example happy_path_lead :
  get 123 (users (polling filters0 lower_ru happy_path world0))
  = Some {| user_id := 123; name := Some "Ann";
            goal := Some "invest"; property := Some "2";
            city := Some "moscow"; district := Some "юго-западный";
            mortgage := Some "install_coast"; handover := Some "now";
            finishing := Some "ready"; phone := Some "+79990000000";
            created_at := Some "2024-05-01T09:00:00" |}.
Proof. vm_compute. reflexivity. Qed.

(** ** Button presses through the dispatcher *)

Lemma routed_app (p x : string) :
  In p ["goal_"; "type_"; "city_"; "district_"; "family_"; "install_";
        "hd_"; "finish_"] →
  routed (p ++ x) = true.
Proof.
  intros Hin. unfold routed. apply existsb_exists. exists p.
  split; [exact Hin|apply prefix_app].
Qed.

Lemma stored_field_unrouted (data : string) :
  routed data = false → stored_field data = None.
Proof.
  unfold stored_field.
  destruct (cut_underscore data) as [[h x]|] eqn:Ec; [|reflexivity].
  apply cut_underscore_join in Ec. subst data. intros Hr.
  repeat (destruct (String.eqb h _) eqn:Eh;
          [exfalso; apply String.eqb_eq in Eh; subst h;
           match type of Hr with
           | routed (?h0 ++ "_" ++ x) = false =>
               let p := eval cbv in (h0 ++ "_") in
               change (routed (p ++ x) = false) in Hr;
               rewrite (routed_app p x) in Hr by (simpl; auto 10)
           end; discriminate Hr|clear Eh]).
  reflexivity.
Qed.

Ltac crunch :=
  run_handler;
  repeat match goal with
         | |- context [transport ?e ?c] => destruct (transport e c) eqn:?; simpl
         end.

(** After the eight filters: one goal per handler, the data being the
    prefix followed by [x] and [payload] already run, and one goal for a
    press that no filter accepts. *)
Ltac callback_cases cb :=
  let from := fresh "from" in
  let data := fresh "data" in
  let chat := fresh "chat" in
  destruct cb as [from data chat];
  unfold dispatch_callback, callback_handlers;
  cbn [find fst snd cb_data];
  repeat match goal with
         | |- context [String.prefix ?p data] =>
             let E := fresh "E" in
             let x := fresh "x" in
             destruct (String.prefix p data) eqn:E;
             [apply prefix_split in E as [x ->];
              cbv beta iota zeta delta
                [fst snd cb_data cb_from cb_chat
                 handle_goal handle_type handle_city handle_district
                 handle_family handle_install handle_handover handle_finish
                 ask_mortgage ask_handover];
              replace (payload (p ++ x)) with (@mret Handler _ _ x)
                by reflexivity|]
         end.

Lemma dispatch_callback_users (str_lower : string → string) (e : Env)
    (cb : CallbackQuery) (w : World) :
  users (fst (dispatch_callback str_lower e cb w)) =
  match stored_field (cb_data cb) with
  | Some (c, v) =>
      upsert_user (cb_from cb) {[ c := Some v ]} (utcnow e) (users w)
  | None => users w
  end.
Proof.
  callback_cases cb.
  all: try (run_handler; try destruct (String.eqb x "no"); crunch; reflexivity).
  rewrite stored_field_unrouted; [reflexivity|].
  unfold routed. simpl. rewrite E, E0, E1, E2, E3, E4, E5, E6. reflexivity.
Qed.

(** X7: what a button press stores does not depend on the transport: a
    press that a callback filter accepts upserts the sender's row with one
    field (goal, property, city, district, handover, finishing: the text
    after the first underscore; mortgage: ["family"] for [yes], else
    ["no_family"], or ["install_"] and the location), whether or not the
    next prompt can be delivered; any other press leaves the table as it
    is. *)
Theorem dispatch_callback_stores (str_lower : string → string) (e : Env)
    (cb : CallbackQuery) (w : World) :
  users (fst (dispatch_callback str_lower e cb w)) =
  match stored_field (cb_data cb) with
  | Some (c, v) =>
      upsert_user (cb_from cb) {[ c := Some v ]} (utcnow e) (users w)
  | None => users w
  end.
Proof. apply dispatch_callback_users. Qed.

(** X8: under the dispatcher no button press raises at
    [cb.data.split("_",1)[1]]: a press ends normally or with the error of a
    refused transport call, and it ends normally when the transport accepts
    every call. *)
Theorem dispatch_callback_outcome (str_lower : string → string) (e : Env)
    (cb : CallbackQuery) (w : World) :
  (snd (dispatch_callback str_lower e cb w) = inr tt
   ∨ snd (dispatch_callback str_lower e cb w) = inl TelegramAPIError)
  ∧ ((∀ c, transport e c = true) →
     snd (dispatch_callback str_lower e cb w) = inr tt).
Proof.
  split.
  - callback_cases cb.
    all: try (run_handler; try destruct (String.eqb x "no"); crunch; auto).
  - intros Hok. callback_cases cb.
    all: try (run_handler; try destruct (String.eqb x "no"); run_handler;
              rewrite ?Hok; simpl; rewrite ?Hok; reflexivity).
Qed.

Lemma dispatch_callback_outcome_witness :
  (∀ c, transport (env0 "member" []) c = true)
  ∧ snd (dispatch_callback lower_ru (env0 "member" []) (press123 "goal_invest")
           world123) = inr tt.
Proof.
  assert (∀ c, transport (env0 "member" []) c = true) as Hok.
  { intros [chat t kb|chat pth cap|u]; reflexivity. }
  split; [exact Hok|].
  apply (dispatch_callback_outcome lower_ru (env0 "member" [])
           (press123 "goal_invest") world123), Hok.
Defined.

(** ** Single handlers *)

(** X9: [handle_family] asks for the installment location only on the
    payload [no]; on every other payload, [yes] or not, the next message is
    the handover question, and what is stored is ["family"] for [yes] and
    ["no_family"] for anything else. *)
Theorem handle_family_branches (e : Env) (cb : CallbackQuery) (w : World)
    (x : string) :
  cb_data cb = "family_" ++ x →
  mortgage <$> get (cb_from cb) (users (fst (handle_family e cb w)))
  = Some (Some (if String.eqb x "yes" then "family" else "no_family"))
  ∧ ∃ kb ok rest,
      trace (fst (handle_family e cb w)) =
      (trace w
         ++ (send_message (cb_chat cb)
               (if String.eqb x "no" then install_prompt else handover_prompt)
               kb, ok) :: rest)%list.
Proof.
  intros Hd. unfold handle_family, ask_handover, get. rewrite Hd.
  replace (payload ("family_" ++ x)) with (@mret Handler _ _ x) by reflexivity.
  run_handler. destruct (String.eqb x "no"); crunch.
  all: rewrite upsert_user_lookup; (split; [reflexivity|]).
  all: do 3 eexists; rewrite <- ?app_assoc; reflexivity.
Qed.

Lemma handle_family_branches_witness :
  mortgage <$> get 123 (users (fst (handle_family (env0 "member" [])
                                      (press123 "family_later") world123)))
  = Some (Some "no_family")
  ∧ ∃ kb ok rest,
      trace (fst (handle_family (env0 "member" []) (press123 "family_later")
                    world123)) =
      (send_message 123 handover_prompt kb, ok) :: rest.
Proof.
  apply (handle_family_branches (env0 "member" []) (press123 "family_later")
           world123 "later").
  reflexivity.
Defined.




(** X11: a district button is read back whole: pressing the button that
    [handle_city] builds for a district name stores its normalised key
    (spaces replaced, lower case) as the district, underscores included,
    whatever the transport does. *)
Theorem district_button_round_trip (str_lower : string → string) (e : Env)
    (from chat : Z) (d label data : string) (w : World) :
  district_button str_lower d = CallbackButton label data →
  district <$> get from
    (users (fst (dispatch_callback str_lower e
                   {| cb_from := from; cb_data := data; cb_chat := chat |} w)))
  = Some (Some (str_lower (replace_space d))).
Proof.
  intros [= <- <-]. rewrite dispatch_callback_users. simpl.
  replace (stored_field ("district_" ++ str_lower (replace_space d)))
    with (Some (c_district, str_lower (replace_space d))) by reflexivity.
  unfold get. rewrite upsert_user_lookup. reflexivity.
Qed.

Lemma district_button_round_trip_witness :
  district_button lower_ru "Новый Город"
  = CallbackButton "Новый Город" "district_новый_город"
  ∧ district <$> get 123
      (users (fst (dispatch_callback lower_ru (env0 "member" [])
                     (press123 "district_новый_город") world123)))
    = Some (Some "новый_город").
Proof.
  split; [vm_compute; reflexivity|].
  apply (district_button_round_trip lower_ru (env0 "member" []) 123 123
           "Новый Город" "Новый Город" "district_новый_город" world123).
  vm_compute. reflexivity.
Defined.

(** X12: [/start] from a user who already has a record overwrites the name
    and nothing else: every other field, the id and [created_at] are as
    before, whatever the membership lookup and the transport do. *)
Theorem cmd_start_keeps_lead (e : Env) (m : Message) (w : World) (r : Row) :
  get (from_id m) (users w) = Some r →
  ∃ r', get (from_id m) (users (fst (cmd_start e m w))) = Some r'
        ∧ name r' = Some (full_name m)
        ∧ user_id r' = user_id r
        ∧ (∀ c, c ≠ c_name → col c r' = col c r).
Proof.
  intros Hr. unfold get in *.
  exists (update_row {[ c_name := Some (full_name m) ]} r).
  assert (users (fst (cmd_start e m w))
          = upsert_user (from_id m) {[ c_name := Some (full_name m) ]}
              (utcnow e) (users w)) as ->.
  { unfold cmd_start, ask_goal. run_handler.
    destruct (get_chat_member e (from_id m)) as [st|]; simpl; [|reflexivity].
    destruct (negb (is_subscribed st)); crunch; reflexivity. }
  rewrite upsert_user_lookup, Hr. split; [reflexivity|].
  split; [reflexivity|]. split; [reflexivity|].
  intros c Hc. rewrite update_row_col, set_one_col.
  destruct (decide (c_name = c)); congruence.
Qed.

Lemma cmd_start_keeps_lead_witness :
  get 123 (users world123) = Some lead123
  ∧ ∃ r', get 123 (users (fst (cmd_start (env0 "left" [123]) start123 world123)))
          = Some r'
          ∧ name r' = Some "Ann"
          ∧ user_id r' = 123
          ∧ (∀ c, c ≠ c_name → col c r' = col c lead123).
Proof.
  split; [reflexivity|].
  apply (cmd_start_keeps_lead (env0 "left" [123]) start123 world123 lead123).
  reflexivity.
Defined.

(** X13: when the membership lookup itself fails, [cmd_start] raises
    without sending anything, the name being already written. *)
Theorem cmd_start_lookup_fails (e : Env) (m : Message) (w : World) :
  get_chat_member e (from_id m) = None →
  snd (cmd_start e m w) = inl TelegramAPIError
  ∧ trace (fst (cmd_start e m w)) = trace w
  ∧ name <$> get (from_id m) (users (fst (cmd_start e m w)))
    = Some (Some (full_name m)).
Proof.
  intros Hg. unfold cmd_start, get. run_handler. rewrite Hg. simpl.
  rewrite upsert_user_lookup. auto.
Qed.

Lemma cmd_start_lookup_fails_witness :
  snd (cmd_start {| ADMIN_ID := 777; utcnow := "t"; transport := fun _ => true;
                    get_chat_member := fun _ => None;
                    path_exists := fun _ => false |} start123 world0)
  = inl TelegramAPIError.
Proof.
  apply (cmd_start_lookup_fails
           {| ADMIN_ID := 777; utcnow := "t"; transport := fun _ => true;
              get_chat_member := fun _ => None;
              path_exists := fun _ => false |} start123 world0).
  reflexivity.
Defined.

(** X14: a member, creator or administrator of the channel gets the goal
    question, with its two buttons, as the only message of [/start]. *)
Theorem cmd_start_subscribed (e : Env) (m : Message) (w : World)
    (status : string) :
  get_chat_member e (from_id m) = Some status →
  status ∈ ["member"; "creator"; "administrator"] →
  ∃ ok,
    trace (fst (cmd_start e m w)) =
    (trace w
       ++ [(send_message (chat_id m) goal_prompt
              (InlineKeyboardMarkup
                 [CallbackButton "🏡 Для проживания" "goal_live";
                  CallbackButton "💼 Для инвестиций" "goal_invest"]), ok)])%list
    ∧ snd (cmd_start e m w) = if ok then inr tt else inl TelegramAPIError.
Proof.
  intros Hg Hin.
  assert (is_subscribed status = true) as Hs.
  { unfold is_subscribed. apply bool_decide_eq_true. exact Hin. }
  unfold cmd_start, ask_goal. run_handler. rewrite Hg. simpl.
  rewrite Hs. simpl. eexists. split; reflexivity.
Qed.

Lemma cmd_start_subscribed_witness :
  ∃ ok,
    trace (fst (cmd_start (env0 "creator" []) start123 world0)) =
    [(send_message 123 goal_prompt
        (InlineKeyboardMarkup
           [CallbackButton "🏡 Для проживания" "goal_live";
            CallbackButton "💼 Для инвестиций" "goal_invest"]), ok)]
    ∧ snd (cmd_start (env0 "creator" []) start123 world0)
      = if ok then inr tt else inl TelegramAPIError.
Proof.
  apply (cmd_start_subscribed (env0 "creator" []) start123 world0 "creator").
  - reflexivity.
  - apply list_elem_of_In. simpl. auto.
Defined.

(** X15: when the transport refuses the message to the admin,
    [handle_contact] raises there: the phone is already stored, and neither
    the document nor the thank-you message is sent to the user. *)
Theorem handle_contact_admin_refused (e : Env) (msg : Message) (w : World)
    (p : string) :
  contact msg = Some p →
  transport e (send_message (ADMIN_ID e) admin_header NoMarkup) = false →
  snd (handle_contact e msg w) = inl TelegramAPIError
  ∧ trace (fst (handle_contact e msg w)) =
      (trace w ++ [(send_message (ADMIN_ID e) admin_header NoMarkup, false)])%list
  ∧ phone <$> get (from_id msg) (users (fst (handle_contact e msg w)))
    = Some (Some p).
Proof.
  intros Hc Hno. unfold handle_contact, get. rewrite Hc. run_handler.
  unfold get. rewrite upsert_user_lookup. simpl. rewrite Hno. simpl.
  rewrite upsert_user_lookup. auto.
Qed.

Lemma handle_contact_admin_refused_witness :
  snd (handle_contact (env0 "member" [777]) contact123 world123)
  = inl TelegramAPIError
  ∧ texts_to 123 (fst (handle_contact (env0 "member" [777]) contact123 world123))
    = []
  ∧ phone <$> get 123
      (users (fst (handle_contact (env0 "member" [777]) contact123 world123)))
    = Some (Some "+79990000000").
Proof.
  destruct (handle_contact_admin_refused (env0 "member" [777]) contact123
              world123 "+79990000000" eq_refl eq_refl) as (H1 & H2 & H3).
  split; [exact H1|]. split; [|exact H3].
  unfold texts_to, attempted. rewrite H2. reflexivity.
Defined.

(** X16: when the transport accepts every call, [handle_contact] ends
    normally after, in this order, the message to the admin, the document
    for the user if the file exists, and the thank-you message that removes
    the reply keyboard. *)
Theorem handle_contact_sequence (e : Env) (msg : Message) (w : World)
    (p : string) :
  contact msg = Some p →
  (∀ c, transport e c = true) →
  snd (handle_contact e msg w) = inr tt
  ∧ attempted (fst (handle_contact e msg w)) =
      (attempted w
         ++ send_message (ADMIN_ID e) admin_header NoMarkup
         :: (if path_exists e PDF_FILE_PATH
             then [send_document (chat_id msg) PDF_FILE_PATH pdf_caption]
             else [])
         ++ [send_message (chat_id msg) thanks ReplyKeyboardRemove])%list.
Proof.
  intros Hc Hok. unfold handle_contact, attempted. rewrite Hc. run_handler.
  unfold get. rewrite upsert_user_lookup. simpl. rewrite Hok. simpl.
  destruct (path_exists e PDF_FILE_PATH); run_handler; rewrite ?Hok; simpl;
    rewrite ?Hok; simpl; (split; [reflexivity|]);
    rewrite !fmap_app, <- ?app_assoc; reflexivity.
Qed.

Lemma handle_contact_sequence_witness :
  let e := {| ADMIN_ID := 777; utcnow := "t"; transport := fun _ => true;
              get_chat_member := fun _ => Some "member";
              path_exists := fun _ => true |} in
  (∀ c, transport e c = true)
  ∧ attempted (fst (handle_contact e contact123 world123)) =
      [send_message 777 admin_header NoMarkup;
       send_document 123 PDF_FILE_PATH pdf_caption;
       send_message 123 thanks ReplyKeyboardRemove].
Proof.
  intros e. split; [intros c; reflexivity|].
  apply (handle_contact_sequence e contact123 world123 "+79990000000" eq_refl).
  intros c. reflexivity.
Defined.

(** ** The admin commands and the order of the message handlers *)

(** X17: from anyone but the admin, [cmd_stats] and [cmd_broadcast] return
    at once: nothing is sent and nothing is written. *)
Theorem admin_commands_guard (e : Env) (m : Message) (w : World) :
  from_id m ≠ ADMIN_ID e →
  cmd_stats e m w = (w, inr tt) ∧ cmd_broadcast e m w = (w, inr tt).
Proof.
  intros Hne. unfold cmd_stats, cmd_broadcast.
  rewrite bool_decide_true by exact Hne. split; reflexivity.
Qed.

Lemma admin_commands_guard_witness :
  cmd_stats (env0 "member" []) (text123 "/stats") world123 = (world123, inr tt)
  ∧ cmd_broadcast (env0 "member" []) (text123 "/broadcast hi") world123
    = (world123, inr tt).
Proof.
  apply (admin_commands_guard (env0 "member" []) (text123 "/stats") world123).
  intros H. discriminate H.
Defined.

(** X18: [cmd_broadcast] from the admin never writes to the table.  With
    nothing after the first space of the text it sends the usage line and
    does not broadcast; otherwise it makes one delivery attempt per known
    id with the rest of the text, later spaces included, and then sends the
    confirmation, also when deliveries were refused. *)
Theorem cmd_broadcast_admin (e : Env) (m : Message) (w : World) (t : string) :
  from_id m = ADMIN_ID e →
  text m = Some t →
  users (fst (cmd_broadcast e m w)) = users w
  ∧ ∃ ok,
      trace (fst (cmd_broadcast e m w)) =
      (trace w ++
       if String.eqb (partition_space_2 t) ""
       then [(send_message (chat_id m) broadcast_usage NoMarkup, ok)]
       else map (broadcast_attempt e (partition_space_2 t) NoMarkup)
              (iterate_users (users w))
            ++ [(send_message (chat_id m) broadcast_done NoMarkup, ok)])%list
      ∧ snd (cmd_broadcast e m w) = if ok then inr tt else inl TelegramAPIError.
Proof.
  intros Hadm Ht. unfold cmd_broadcast.
  rewrite bool_decide_false by (intros H; apply H, Hadm).
  rewrite Ht. destruct (String.eqb (partition_space_2 t) "").
  - run_handler. split; [reflexivity|]. eexists. split; reflexivity.
  - unfold mbind, Handler_bind, mass_send. rewrite for_each_sends.
    run_handler. split; [reflexivity|]. eexists.
    rewrite <- app_assoc. split; reflexivity.
Qed.

Lemma cmd_broadcast_admin_witness :
  partition_space_2 "/broadcast hello to all" = "hello to all"
  ∧ ∃ ok,
      trace (fst (cmd_broadcast (env0 "member" [2])
                    (admin_text "/broadcast hello to all") world3)) =
      (map (broadcast_attempt (env0 "member" [2]) "hello to all" NoMarkup)
         (iterate_users (users world3))
       ++ [(send_message 777 broadcast_done NoMarkup, ok)])%list
      ∧ snd (cmd_broadcast (env0 "member" [2])
               (admin_text "/broadcast hello to all") world3)
        = if ok then inr tt else inl TelegramAPIError.
Proof.
  split; [reflexivity|].
  destruct (cmd_broadcast_admin (env0 "member" [2])
              (admin_text "/broadcast hello to all") world3
              "/broadcast hello to all" eq_refl eq_refl) as (_ & ok & H1 & H2).
  exists ok. split; [exact H1|exact H2].
Defined.

(** X19: in the order of registration the handler without filter comes
    before [cmd_stats] and [cmd_broadcast], so no message reaches these
    two: a message goes to [cmd_start] when the start filter accepts it,
    else to [handle_contact] when it carries a contact, else to
    [smart_replies], whatever the command filters say. *)
Theorem dispatch_message_reaches (F : Filters) (str_lower : string → string)
    (e : Env) (m : Message) :
  dispatch_message F str_lower e m =
  if CommandStart F m then cmd_start e m
  else if bool_decide (is_Some (contact m)) then handle_contact e m
  else smart_replies str_lower e m.
Proof.
  unfold dispatch_message, message_handlers. cbn [find fst snd].
  destruct (CommandStart F m); [reflexivity|].
  destruct (bool_decide _); reflexivity.
Qed.

(** The admin's [/stats] gets the catch-all acknowledgement, not the count. *)
Example admin_stats_gets_generic_reply :
  Command filters0 "stats" (admin_text "/stats") = true
  ∧ texts_to 777 (fst (dispatch_message filters0 lower_ru (env0 "member" [])
                         (admin_text "/stats") world3))
    = [reply_generic].
Proof. split; vm_compute; reflexivity. Qed.

Lemma answer_inj (e : Env) (chat : Z) (r1 r2 : string) (kb : markup) (w : World) :
  answer e chat r1 kb w = answer e chat r2 kb w → r1 = r2.
Proof.
  unfold answer, call. intros H. injection H as Htr _.
  apply app_inv_head in Htr. injection Htr as Hr _. exact Hr.
Qed.

(** X20: on a message with text, [smart_replies] sends the generic
    acknowledgement exactly when none of its six keywords occurs as a
    substring of the lower-cased text. *)
Theorem smart_replies_generic_iff (str_lower : string → string) (e : Env)
    (m : Message) (w : World) (t : string) :
  text m = Some t →
  (smart_replies str_lower e m w
   = answer e (chat_id m) reply_generic NoMarkup w
   ↔ ∀ k, In k ["море"; "побережье"; "цена"; "стоимость"; "ипотек"; "рассроч"] →
          ¬ ∃ a b, str_lower t = a ++ k ++ b).
Proof.
  intros Ht. unfold smart_replies, any_in. rewrite Ht. cbn [existsb].
  assert (∀ k, contains k (str_lower t) = true →
               In k ["море"; "побережье"; "цена"; "стоимость"; "ипотек"; "рассроч"] →
               ¬ (∀ k, In k ["море"; "побережье"; "цена"; "стоимость"; "ипотек"; "рассроч"] →
                       ¬ ∃ a b, str_lower t = a ++ k ++ b)) as Hocc.
  { intros k Hk Hin Hall. apply (Hall k Hin). apply contains_split, Hk. }
  destruct (contains "море" (str_lower t)) eqn:E1; cbn [orb].
  { split; [intros H%answer_inj; discriminate H|].
    intros H. destruct (Hocc _ E1 ltac:(simpl; auto 10) H). }
  destruct (contains "побережье" (str_lower t)) eqn:E2; cbn [orb].
  { split; [intros H%answer_inj; discriminate H|].
    intros H. destruct (Hocc _ E2 ltac:(simpl; auto 10) H). }
  destruct (contains "цена" (str_lower t)) eqn:E3; cbn [orb].
  { split; [intros H%answer_inj; discriminate H|].
    intros H. destruct (Hocc _ E3 ltac:(simpl; auto 10) H). }
  destruct (contains "стоимость" (str_lower t)) eqn:E4; cbn [orb].
  { split; [intros H%answer_inj; discriminate H|].
    intros H. destruct (Hocc _ E4 ltac:(simpl; auto 10) H). }
  destruct (contains "ипотек" (str_lower t)) eqn:E5; cbn [orb].
  { split; [intros H%answer_inj; discriminate H|].
    intros H. destruct (Hocc _ E5 ltac:(simpl; auto 10) H). }
  destruct (contains "рассроч" (str_lower t)) eqn:E6; cbn [orb].
  { split; [intros H%answer_inj; discriminate H|].
    intros H. destruct (Hocc _ E6 ltac:(simpl; auto 10) H). }
  split; [|reflexivity]. intros _ k Hin (a & b & Hab).
  assert (contains k (str_lower t) = true) as Hk
    by (rewrite Hab; apply contains_app).
  simpl in Hin.
  repeat (destruct Hin as [<-|Hin]; [congruence|]). exact Hin.
Qed.

Lemma smart_replies_generic_iff_witness :
  smart_replies lower_ru (env0 "member" []) (text123 "Hello") world123
  = answer (env0 "member" []) 123 reply_generic NoMarkup world123.
Proof.
  apply (smart_replies_generic_iff lower_ru (env0 "member" [])
           (text123 "Hello") world123 "Hello" eq_refl).
  intros k Hin (a & b & Hab).
  assert (contains k (lower_ru "Hello") = true) as Hk
    by (rewrite Hab; apply contains_app).
  simpl in Hin.
  repeat (destruct Hin as [<-|Hin]; [vm_compute in Hk; discriminate Hk|]).
  exact Hin.
Defined.
